(** * find_face_landmarks_mex: the MATLAB binding of the face-landmark tracker

    A shallow embedding of [mexFunction] from
    [interfaces/matlab/find_face_landmarks_mex/find_face_landmarks_mex.cpp].

    The binding parses the host arguments, creates a tracking session and a
    video source, pulls frames in a loop, and marshals the accumulated
    per-frame results into a nested struct array.  The collaborators (the
    [sfl] session, the [vsal] video source, OpenCV's GUI and the [MxArray]
    accessors) are answers supplied by an environment; the binding's own
    control flow, its error handling and its marshalling code are embedded
    statement by statement. *)

From Stdlib Require Import ZArith.
From stdpp Require Import base list strings pretty.

Set Warnings "-register-all".

Local Open Scope string_scope.
Local Open Scope list_scope.
Local Open Scope Z_scope.

(** ** C scalars *)

(** A C [int] is a [Z] in the 32-bit two's-complement range; arithmetic on
    it wraps. *)
Definition INT_MIN : Z := - 2 ^ 31.
Definition INT_MAX : Z := 2 ^ 31 - 1.

Definition int_wrap (z : Z) : Z := (z + 2 ^ 31) mod 2 ^ 32 - 2 ^ 31.

Definition int_add (a b : Z) : Z := int_wrap (a + b).
Definition int_sub (a b : Z) : Z := int_wrap (a - b).

Definition is_int (z : Z) : Prop := INT_MIN ≤ z ≤ INT_MAX.

(** Floating-point numbers are carried as their IEEE-754 bit patterns
    ([double]: binary64, [float]: binary32); the binding performs no
    arithmetic on them. *)
Definition double := Z.
Definition float := Z.

(** The literal [1.0f]. *)
Definition float_one : float := 1065353216.

(** ** OpenCV and sfl data *)

(** [cv::Mat] as an image: only its size is observed by the binding. *)
Record Mat := mkMat { rows : Z; cols : Z; pixels : list Z }.

(** [cv::Point] and [cv::Rect], with [int] members. *)
Record Point := mkPoint { pt_x : Z; pt_y : Z }.
Record Rect := mkRect { rect_x : Z; rect_y : Z; rect_width : Z; rect_height : Z }.

(** [sfl::Face] and [sfl::Frame]. *)
Record Face := mkFace { landmarks : list Point; bbox : Rect }.
Record Frame := mkFrame { faces : list Face; width : Z; height : Z }.

(** ** Host arrays *)

(** The class of a host array ([mxClassID] of the MEX C API). *)
Inductive mxClassID :=
| mxUNKNOWN_CLASS | mxCELL_CLASS | mxSTRUCT_CLASS | mxLOGICAL_CLASS
| mxCHAR_CLASS | mxVOID_CLASS | mxDOUBLE_CLASS | mxSINGLE_CLASS
| mxINT8_CLASS | mxUINT8_CLASS | mxINT16_CLASS | mxUINT16_CLASS
| mxINT32_CLASS | mxUINT32_CLASS | mxINT64_CLASS | mxUINT64_CLASS
| mxFUNCTION_CLASS.

Global Instance mxClassID_eq_dec : EqDecision mxClassID.
Proof. solve_decision. Defined.

(** A call to a collaborator either returns, throws a C++ exception derived
    from [std::exception] (carrying its [what()] text), or reports an error
    to the host directly through [mexErrMsgIdAndTxt], which does not return
    to its caller. *)
Inductive Result (A : Type) :=
| Ok (a : A)
| Throw (what : string)
| MexError (id msg : string).
Arguments Ok {A} a.
Arguments Throw {A} what.
Arguments MexError {A} id msg.

(** An argument handed over by the host.  [MxArray.hpp] is not part of the
    sources at hand, so an argument is described by its class and by the
    answer of each [MxArray] accessor the binding applies to it. *)
Record mxArray := mkArg {
  classID : mxClassID;
  toString : Result string;
  toInt : Result Z;
  toDouble : Result double;
  toBool : Result bool
}.

(** Modelled from the spec: the type tests of [MxArray] (a string, a
    number of a given class) answer by the class of the array. *)
Definition isChar (a : mxArray) : bool := bool_decide (classID a = mxCHAR_CLASS).
Definition isInt32 (a : mxArray) : bool := bool_decide (classID a = mxINT32_CLASS).
Definition isDouble (a : mxArray) : bool := bool_decide (classID a = mxDOUBLE_CLASS).

(** The host's notion of a number ([mxIsNumeric]): the floating-point and
    the integer classes; characters and logicals are not numeric. *)
Definition mxIsNumeric (a : mxArray) : bool :=
  match classID a with
  | mxDOUBLE_CLASS | mxSINGLE_CLASS
  | mxINT8_CLASS | mxUINT8_CLASS | mxINT16_CLASS | mxUINT16_CLASS
  | mxINT32_CLASS | mxUINT32_CLASS | mxINT64_CLASS | mxUINT64_CLASS => true
  | _ => false
  end.

(** Arrays created by the binding live on the host's heap and are referred
    to by pointer: a struct array holds pointers to its field values, so an
    array attached to a field and filled afterwards is seen filled. *)
Definition ptr := nat.

(** A numeric matrix is given by its rows; a struct array by its
    dimensions, its field names and, for each element, one slot per field
    (a null slot is an unset field, which the host shows as empty). *)
Inductive mxObj :=
| ObjNumeric (nrows ncols : nat) (data : list (list Z))
| ObjStruct (nrows ncols : nat) (fields : list string)
            (elems : list (list (option ptr))).

(** What the host reads back from a pointer. *)
Inductive mxValue :=
| MxNumeric (nrows ncols : nat) (data : list (list Z))
| MxStruct (nrows ncols : nat) (fields : list string)
           (elems : list (list (option mxValue))).

(** Reading a field slot: a null slot reads as empty. *)
Definition read_slot (read : ptr → option mxValue) (slot : option ptr)
  : option (option mxValue) :=
  match slot with
  | None => Some None
  | Some q => Some <$> read q
  end.

(** Reading the value at a pointer, following the pointers of struct
    arrays to the given depth. *)
Fixpoint read_back (fuel : nat) (h : list mxObj) (p : ptr) : option mxValue :=
  match fuel with
  | O => None
  | S n =>
      match h !! p with
      | None => None
      | Some (ObjNumeric r k d) => Some (MxNumeric r k d)
      | Some (ObjStruct r k fs es) =>
          es' ← mapM (mapM (read_slot (read_back n h))) es;
          Some (MxStruct r k fs es')
      end
  end.

(** ** Collaborators *)

(** One pull from the video source: [read()] returned [true], with the
    update flag and the current frame. *)
Record Pull := mkPull { updated : bool; image : Mat }.

(** A video source: the answer of [open()] and the successive answers of
    [read()]; after the last one [read()] returns [false]. *)
Record VideoStream := mkStream {
  vs_open : Result bool;
  vs_reads : list (Result Pull)
}.

(** Modelled from the spec: the tracking session ([sfl::SequenceFaceLandmarks],
    whose sources are not at hand) owns the sequence of per-frame results;
    it is created empty, and pushing a frame appends exactly one result,
    which is returned.  The tracker computes that result from the results
    so far and the image, or throws. *)
Definition Tracker := list Frame → Mat → Result Frame.

Record Env := mkEnv {
  float_of_double : double → float;            (* the C conversion [(float)d] *)
  sfl_create : string → float → Result Tracker;
  vsf_create : string → Result (option VideoStream);
  imshow : Result unit;
  waitKey : nat → Z;                           (* answer of the n-th poll *)
  destroyWindow : Result unit
}.

(** Calls made to the collaborators, in order. *)
Inductive Event :=
| EvSflCreate (model : string) (scale : float)
| EvVsfCreate (path : string) (null : bool)
| EvOpen
| EvRead
| EvIsUpdated (b : bool)
| EvGetFrame
| EvAddFrame (img : Mat) (res : option Frame)
| EvRender
| EvPutText (msg : string) (x y : Z)
| EvImshow
| EvWaitKey (key : Z)
| EvDestroyWindow.

(** ** State and the error monad *)

Record World := mkWorld {
  heap : list mxObj;          (* host arrays created so far *)
  plhs0 : option ptr;         (* plhs[0] *)
  sequence : list Frame;      (* the session's result sequence *)
  polls : nat;                (* number of key polls so far *)
  calls : list Event          (* collaborator calls so far *)
}.

Definition M (A : Type) : Type := World → Result A * World.

Definition ret {A} (a : A) : M A := λ w, (Ok a, w).

Definition bind {A B} (m : M A) (k : A → M B) : M B :=
  λ w, match m w with
       | (Ok a, w') => k a w'
       | (Throw e, w') => (Throw e, w')
       | (MexError i s, w') => (MexError i s, w')
       end.

Notation "x <- m ;; k" := (bind m (λ x, k))
  (at level 100, m at next level, right associativity).
Notation "m ;; k" := (bind m (λ _, k))
  (at level 100, right associativity).

(** [throw runtime_error(msg)]. *)
Definition throw {A} (msg : string) : M A := λ w, (Throw msg, w).

(** An [MxArray] accessor applied to an argument. *)
Definition access {A} (r : Result A) : M A := λ w, (r, w).

Definition log (e : Event) (w : World) : World :=
  mkWorld (heap w) (plhs0 w) (sequence w) (polls w) (calls w ++ [e]).

(** A call to a collaborator: recorded, then answered. *)
Definition call {A} (e : Event) (r : Result A) : M A := λ w, (r, log e w).

(** ** Argument parsing (lines 34-60) *)

(** The local variables set while parsing. *)
Record Params := mkParams {
  inputPath : string;
  landmarksModelPath : string;
  device : Z;
  p_width : Z;
  p_height : Z;
  frame_scale : float;
  preview : bool
}.

(** An argument never read by the binding stands for [prhs[i]] beyond
    [nrhs]; every read below is guarded by a test on [nrhs]. *)
Definition no_arg : mxArray :=
  mkArg mxUNKNOWN_CLASS (MexError "" "") (MexError "" "") (MexError "" "")
        (MexError "" "").

Definition arg (prhs : list mxArray) (i : nat) : mxArray := nth i prhs no_arg.

Definition parse_arguments (env : Env) (prhs : list mxArray) : M Params :=
  let nrhs := Z.of_nat (length prhs) in
  if nrhs =? 0 then throw "No parameters specified!" else
  if nrhs <? 2 then throw "Invalid number of parameters!" else
  if negb (isChar (arg prhs 0)) then
    throw "modelFile must be a string containing the path to the model file!"
  else
  model <- access (toString (arg prhs 0)) ;;
  if isChar (arg prhs 1) then
    (* Dataset *)
    path <- access (toString (arg prhs 1)) ;;
    scale <- (if nrhs >? 2
              then d <- access (toDouble (arg prhs 2)) ;; ret (float_of_double env d)
              else ret float_one) ;;
    prev <- (if nrhs >? 3 then access (toBool (arg prhs 3)) else ret true) ;;
    ret (mkParams path model (-1) 0 0 scale prev)
  else if isInt32 (arg prhs 1) || isDouble (arg prhs 1) then
    (* Live video *)
    dev <- access (toInt (arg prhs 1)) ;;
    w <- (if nrhs >? 2 then access (toInt (arg prhs 2)) else ret 0) ;;
    h <- (if nrhs >? 3 then access (toInt (arg prhs 3)) else ret 0) ;;
    scale <- (if nrhs >? 4
              then d <- access (toDouble (arg prhs 4)) ;; ret (float_of_double env d)
              else ret float_one) ;;
    ret (mkParams "" model dev w h scale true)
  else throw "Second parameter must be either a sequence path or a device id!".

(** ** Session and video source (lines 62-73) *)

Definition with_heap (h : list mxObj) (w : World) : World :=
  mkWorld h (plhs0 w) (sequence w) (polls w) (calls w).
Definition with_plhs0 (p : ptr) (w : World) : World :=
  mkWorld (heap w) (Some p) (sequence w) (polls w) (calls w).
Definition with_sequence (s : list Frame) (w : World) : World :=
  mkWorld (heap w) (plhs0 w) s (polls w) (calls w).

(** [sfl::SequenceFaceLandmarks::create(landmarksModelPath, frame_scale)]. *)
Definition create_session (env : Env) (model : string) (scale : float)
  : M Tracker :=
  λ w, match sfl_create env model scale with
       | Ok tr => (Ok tr, log (EvSflCreate model scale) (with_sequence [] w))
       | r => (r, log (EvSflCreate model scale) w)
       end.

(** [vsf.create(inputPath)]. *)
Definition create_source (env : Env) (path : string) : M (option VideoStream) :=
  let r := vsf_create env path in
  call (EvVsfCreate path match r with Ok None => true | _ => false end) r.

(** [sfl->addFrame(frame)]. *)
Definition addFrame (tr : Tracker) (img : Mat) : M Frame :=
  λ w, match tr (sequence w) img with
       | Ok f => (Ok f, log (EvAddFrame img (Some f))
                            (with_sequence (sequence w ++ [f]) w))
       | r => (r, log (EvAddFrame img None) w)
       end.

(** [cv::waitKey(1)]. *)
Definition poll_key (env : Env) : M Z :=
  λ w, let key := waitKey env (polls w) in
       (Ok key, log (EvWaitKey key)
                    (mkWorld (heap w) (plhs0 w) (sequence w) (S (polls w)) (calls w))).

(** ** Main loop (lines 75-104) *)

Fixpoint main_loop (env : Env) (tr : Tracker) (preview : bool)
    (reads : list (Result Pull)) (faceCounter : Z) : M unit :=
  match reads with
  | [] => call EvRead (Ok tt)                       (* [vs->read()] is false *)
  | r :: rest =>
      p <- call EvRead r ;;
      upd <- call (EvIsUpdated (updated p)) (Ok (updated p)) ;;
      if negb upd then main_loop env tr preview rest faceCounter   (* continue *)
      else
        frame <- call EvGetFrame (Ok (image p)) ;;
        landmarks_frame <- addFrame tr frame ;;
        if preview then
          let faceCounter :=
            int_wrap (faceCounter + Z.of_nat (length (faces landmarks_frame))) in
          call EvRender (Ok tt) ;;
          let msg := "Faces found so far: " +:+ pretty faceCounter in
          call (EvPutText msg 15 15) (Ok tt) ;;
          call (EvPutText "press any key to stop" 10 (int_sub (rows frame) 20))
               (Ok tt) ;;
          call EvImshow (imshow env) ;;
          key <- poll_key env ;;
          if key >=? 0 then ret tt                                  (* break *)
          else main_loop env tr preview rest faceCounter
        else main_loop env tr preview rest faceCounter
  end.

(** ** The MEX C API and the [MxArray] constructors *)

Definition alloc (o : mxObj) (w : World) : ptr * World :=
  (length (heap w), with_heap (heap w ++ [o]) w).

(** [mxCreateStructArray(2, dims, nfields, fieldnames)] with
    [dims = {nrows, ncols}]: every field of every element starts null. *)
Definition mxCreateStructArray (nrows ncols : nat) (fieldnames : list string)
  : World → ptr * World :=
  alloc (ObjStruct nrows ncols fieldnames
           (replicate (nrows * ncols) (replicate (length fieldnames) None))).

Definition field_number (fieldnames : list string) (name : string) : option nat :=
  fst <$> list_find (String.eqb name) fieldnames.

(** [mxSetField(pm, index, fieldname, pvalue)] stores the pointer.  The C
    API leaves a call on a non-struct, an unknown field or an index out of
    range undefined; it is a no-op here. *)
Definition mxSetField (pm : ptr) (index : nat) (fieldname : string)
    (pvalue : ptr) (w : World) : World :=
  match heap w !! pm with
  | Some (ObjStruct r c fs es) =>
      match field_number fs fieldname, es !! index with
      | Some k, Some e =>
          with_heap
            (<[pm := ObjStruct r c fs (<[index := <[k := Some pvalue]> e]> es)]>
               (heap w)) w
      | _, _ => w
      end
  | _ => w
  end.

(** Modelled from the spec: the [MxArray] constructors ([MxArray.hpp] is not
    at hand) copy their argument into a new host array: an [int] becomes a
    scalar, an n-by-2 integer matrix an n-by-2 matrix, and a rectangle the
    row [x, y, width, height]. *)
Definition MxArray_int (i : Z) : World → ptr * World :=
  alloc (ObjNumeric 1 1 [[i]]).

Definition MxArray_Mat (m : list (list Z)) : World → ptr * World :=
  alloc (ObjNumeric (length m) 2 m).

Definition MxArray_Rect (r : Rect) : World → ptr * World :=
  alloc (ObjNumeric 1 4 [[rect_x r; rect_y r; rect_width r; rect_height r]]).

(** ** Output conversion (lines 106-155) *)

Definition frame_fields : list string := ["faces"; "width"; "height"].
Definition face_fields : list string := ["landmarks"; "bbox"].

(** [landmarks += 1] on a [cv::Mat_<int>] whose data pointer is the storage
    of [face.landmarks]: the points of the session are incremented in
    place. *)
Definition increment (p : Point) : Point :=
  mkPoint (int_add (pt_x p) 1) (int_add (pt_y p) 1).

Definition set_landmarks (l : list Point) (f : Face) : Face := mkFace l (bbox f).
Definition set_faces (l : list Face) (f : Frame) : Frame :=
  mkFrame l (width f) (height f).

Definition store_landmarks (i j : nat) (l : list Point) (w : World) : World :=
  with_sequence
    (alter (λ fr, set_faces (alter (set_landmarks l) j (faces fr)) fr) i
           (sequence w)) w.

(** The n-by-2 matrix over the storage of a vector of points. *)
Definition mat_of_points (l : list Point) : list (list Z) :=
  (λ p, [pt_x p; pt_y p]) <$> l.

(** [for (size_t i = first; i < first + count; ++i) body(i)]. *)
Fixpoint for_each {St : Type} (count : nat) (i : nat) (body : nat → St → St)
    (s : St) : St :=
  match count with
  | O => s
  | S c => for_each c (S i) body (body i s)
  end.

(** Body of the loop over the faces of frame [i] (lines 139-153). *)
Definition output_face (facesStructArray : ptr) (i j : nat) (w : World) : World :=
  match sequence w !! i ≫= (λ fr, faces fr !! j) with
  | None => w
  | Some face =>
      (* Convert the landmarks to Matlab's pixel format *)
      let shifted := increment <$> landmarks face in
      let w := store_landmarks i j shifted w in
      let '(pl, w) := MxArray_Mat (mat_of_points shifted) w in
      let w := mxSetField facesStructArray j "landmarks" pl w in
      (* Convert the bounding box to Matlab's pixel format *)
      let bbox_local : list Z :=
        [int_add (rect_x (bbox face)) 1; int_add (rect_y (bbox face)) 1;
         rect_width (bbox face); rect_height (bbox face)] in
      (* Set the bounding to the field of the current face *)
      let '(pb, w) := MxArray_Rect (bbox face) w in
      mxSetField facesStructArray j "bbox" pb w
  end.

(** Body of the loop over the frames (lines 121-154). *)
Definition output_frame (out : ptr) (i : nat) (w : World) : World :=
  match sequence w !! i with
  | None => w
  | Some frame =>
      let '(pw, w) := MxArray_int (width frame) w in
      let w := mxSetField out i "width" pw w in
      let '(ph, w) := MxArray_int (height frame) w in
      let w := mxSetField out i "height" ph w in
      match faces frame with
      | [] => w                                                  (* continue *)
      | _ :: _ =>
          let '(facesStructArray, w) :=
            mxCreateStructArray 1 (length (faces frame)) face_fields w in
          let w := mxSetField out i "faces" facesStructArray w in
          for_each (length (faces frame)) 0 (output_face facesStructArray i) w
      end
  end.

(** Lines 109-155.  The bounds [frames.size()] and [frame.faces.size()] are
    those at loop entry: the conversion replaces points in place and never
    changes the length of a vector. *)
Definition output_results (w : World) : World :=
  let n := length (sequence w) in
  let '(out, w) := mxCreateStructArray 1 n frame_fields w in
  let w := with_plhs0 out w in
  for_each n 0 (output_frame out) w.

(** ** The entry point *)

(** The [try] block (lines 32-159). *)
Definition body (env : Env) (prhs : list mxArray) : M unit :=
  prm <- parse_arguments env prhs ;;
  sfl <- create_session env (landmarksModelPath prm) (frame_scale prm) ;;
  vs <- create_source env (inputPath prm) ;;
  match vs with
  | None => throw "No video source specified!"
  | Some vs =>
      opened <- call EvOpen (vs_open vs) ;;
      if negb opened then throw "Failed to open video source!" else
      main_loop env sfl (preview prm) (vs_reads vs) 0 ;;
      (λ w, (Ok tt, output_results w)) ;;
      call EvDestroyWindow (destroyWindow env)
  end.

(** What the host gets from a call: the value of [plhs[0]] on a normal
    return, or an error (identifier and message) and no value. *)
Inductive HostResult :=
| Returned (out : option ptr)
| Errored (id msg : string).

(** [mexFunction]: the body under its [catch (std::exception& e)] handler,
    which calls [mexErrMsgIdAndTxt(id, "Error: %s", e.what())]. *)
Definition mexFunction (env : Env) (prhs : list mxArray) (w : World)
  : HostResult * World :=
  match body env prhs w with
  | (Ok _, w') => (Returned (plhs0 w'), w')
  | (Throw what, w') =>
      (Errored "dlib_find_face_landmarks:parsing" ("Error: " +:+ what), w')
  | (MexError id msg, w') => (Errored id msg, w')
  end.

(** The state in which the host calls the binding. *)
Definition initial : World := mkWorld [] None [] 0 [].

(** ** Vocabulary of the statements *)

(** An accessor answer that is not a thrown C++ exception: the [MxArray]
    accessors report a mismatch to the host themselves. *)
Definition returns_or_reports {A} (r : Result A) : bool :=
  match r with Throw _ => false | _ => true end.

Definition quiet (a : mxArray) : bool :=
  returns_or_reports (toString a) && returns_or_reports (toInt a) &&
  returns_or_reports (toDouble a) && returns_or_reports (toBool a).

(** A computation that never leaves by a C++ exception. *)
Definition silent {A} (m : M A) : Prop := ∀ w e w', m w ≠ (Throw e, w').

(** Sample arguments: a char array, and a numeric scalar of a given class. *)
Definition ex_string (s : string) : mxArray :=
  mkArg mxCHAR_CLASS (Ok s)
        (MexError "mexopencv:error" "MxArray is not a scalar")
        (MexError "mexopencv:error" "MxArray is not a scalar")
        (MexError "mexopencv:error" "MxArray is not a scalar").

Definition ex_scalar (c : mxClassID) (i : Z) : mxArray :=
  mkArg c (MexError "mexopencv:error" "MxArray not of type char")
        (Ok i) (Ok i) (Ok (negb (i =? 0))).

(** A sample environment: a recording of three pulls, the second one not
    updated; the tracker finds two faces in the first image and none in
    the last; the factory knows no other source. *)
Definition ex_image (k : Z) : Mat := mkMat 480 640 [k].

Definition ex_face : Face :=
  mkFace [mkPoint 0 5; mkPoint 7 9] (mkRect 10 20 30 40).

Definition ex_tracker : Tracker :=
  λ _ m, match pixels m with
         | [0] => Ok (mkFrame [] (cols m) (rows m))
         | [9] => Throw "empty image"
         | _ => Ok (mkFrame [ex_face; ex_face] (cols m) (rows m))
         end.

Definition ex_stream : VideoStream :=
  mkStream (Ok true)
    [Ok (mkPull true (ex_image 1)); Ok (mkPull false (ex_image 1));
     Ok (mkPull true (ex_image 0))].

Definition ex_env : Env :=
  mkEnv (λ d, d) (λ _ _, Ok ex_tracker)
        (λ p, if String.eqb p "video.avi" then Ok (Some ex_stream) else Ok None)
        (Ok tt) (λ _, -1) (Ok tt).

(** Readings of a call trace: the update flags reported by the pulls that
    delivered a frame, the images pushed to the session, and the results
    the session appended. *)
Definition flags (evs : list Event) : list bool :=
  omap (λ e, match e with EvIsUpdated b => Some b | _ => None end) evs.

Definition pushed (evs : list Event) : list Mat :=
  omap (λ e, match e with EvAddFrame img _ => Some img | _ => None end) evs.

Definition results (evs : list Event) : list Frame :=
  omap (λ e, match e with EvAddFrame _ (Some f) => Some f | _ => None end) evs.

(** The calls made from within the main loop. *)
Definition is_loop_event (e : Event) : bool :=
  match e with
  | EvRead | EvIsUpdated _ | EvGetFrame | EvAddFrame _ _ | EvRender
  | EvPutText _ _ _ | EvImshow | EvWaitKey _ => true
  | _ => false
  end.

(** The pulls marked as updated. *)
Definition updated_pulls (l : list Pull) : list Pull :=
  List.filter updated l.

(** ** The expected output *)

(** The matrices a face is marshalled to, as the code produces them. *)
Definition landmarks_matrix (f : Face) : list (list Z) :=
  mat_of_points (increment <$> landmarks f).

Definition bbox_row (f : Face) : list Z :=
  [rect_x (bbox f); rect_y (bbox f); rect_width (bbox f); rect_height (bbox f)].

(** The value the host is expected to read for a face, a frame, and the
    sequence of frames. *)
Definition host_face (f : Face) : list (option mxValue) :=
  [Some (MxNumeric (length (landmarks_matrix f)) 2 (landmarks_matrix f));
   Some (MxNumeric 1 4 [bbox_row f])].

Definition host_frame (fr : Frame) : list (option mxValue) :=
  [match faces fr with
   | [] => None
   | _ :: _ =>
       Some (MxStruct 1 (length (faces fr)) face_fields (host_face <$> faces fr))
   end;
   Some (MxNumeric 1 1 [[width fr]]);
   Some (MxNumeric 1 1 [[height fr]])].

Definition host_frames (frs : list Frame) : mxValue :=
  MxStruct 1 (length frs) frame_fields (host_frame <$> frs).

(** The same, as a shape of the heap: the slots of an element point to
    objects holding the expected contents. *)
Definition face_slots (h : list mxObj) (f : Face) (e : list (option ptr)) : Prop :=
  ∃ pl pb,
    e = [Some pl; Some pb] ∧
    h !! pl = Some (ObjNumeric (length (landmarks_matrix f)) 2 (landmarks_matrix f)) ∧
    h !! pb = Some (ObjNumeric 1 4 [bbox_row f]).

Definition faces_slot (h : list mxObj) (fs : list Face) (slot : option ptr) : Prop :=
  match fs with
  | [] => slot = None
  | _ :: _ =>
      ∃ pf es,
        slot = Some pf ∧
        h !! pf = Some (ObjStruct 1 (length fs) face_fields es) ∧
        Forall2 (face_slots h) fs es
  end.

Definition frame_slots (h : list mxObj) (fr : Frame) (e : list (option ptr)) : Prop :=
  ∃ sf pw ph,
    e = [sf; Some pw; Some ph] ∧
    h !! pw = Some (ObjNumeric 1 1 [[width fr]]) ∧
    h !! ph = Some (ObjNumeric 1 1 [[height fr]]) ∧
    faces_slot h (faces fr) sf.

(** [stable q h h']: the heap grew, and no object but the one at [q] was
    changed. *)
Definition stable (q : ptr) (h h' : list mxObj) : Prop :=
  (length h ≤ length h')%nat ∧
  ∀ p, (p < length h)%nat → p ≠ q → h' !! p = h !! p.

(** Everything but the heap and the session is left as it was. *)
Definition heap_only (w w' : World) : Prop :=
  plhs0 w' = plhs0 w ∧ calls w' = calls w ∧ polls w' = polls w.

(** A computation that leaves the state as it found it. *)
Definition pure {A} (m : M A) : Prop := ∀ w r w', m w = (r, w') → w' = w.

(** What the host reads by [v(index).name] and by [m(k,:)] (0-based here). *)
Definition mx_field (v : mxValue) (index : nat) (name : string) : option mxValue :=
  match v with
  | MxStruct _ _ fs es =>
      k ← field_number fs name; e ← es !! index; slot ← e !! k; slot
  | MxNumeric _ _ _ => None
  end.

Definition mx_row (v : mxValue) (k : nat) : option (list Z) :=
  match v with
  | MxNumeric _ _ d => d !! k
  | MxStruct _ _ _ _ => None
  end.

(** A second sample environment: two updated pulls; the tracker throws on
    the second image, after the first frame has been accumulated. *)
Definition ex_failing_env : Env :=
  mkEnv (λ d, d) (λ _ _, Ok ex_tracker)
        (λ _, Ok (Some (mkStream (Ok true)
                          [Ok (mkPull true (ex_image 1));
                           Ok (mkPull true (ex_image 9))])))
        (Ok tt) (λ _, -1) (Ok tt).

(** A third sample environment: the recording of [ex_env], in a build of
    OpenCV without a window system, where [cv::destroyWindow] throws. *)
Definition ex_headless_env : Env :=
  mkEnv (λ d, d) (λ _ _, Ok ex_tracker) (λ _, Ok (Some ex_stream))
        (Throw "The function is not implemented.") (λ _, -1)
        (Throw "The function is not implemented.").

(** ** Error messages *)

Definition parsing_id : string := "dlib_find_face_landmarks:parsing".

Definition msg_no_parameters : string := "No parameters specified!".
Definition msg_parameter_count : string := "Invalid number of parameters!".
Definition msg_model_path : string :=
  "modelFile must be a string containing the path to the model file!".
Definition msg_second_parameter : string :=
  "Second parameter must be either a sequence path or a device id!".
Definition msg_no_source : string := "No video source specified!".
Definition msg_open_failed : string := "Failed to open video source!".

(** ** The runs of the main loop *)

(** A failure is handed on as it is. *)
Inductive failed {A B : Type} : Result A → Result B → Prop :=
| failed_throw e : failed (Throw e) (Throw e)
| failed_error i s : failed (MexError i s) (MexError i s).

(** The calls made for a pull that is pushed, and those made to show it. *)
Definition pushed_events (img : Mat) (f : Frame) : list Event :=
  [EvRead; EvIsUpdated true; EvGetFrame; EvAddFrame img (Some f)].

Definition next_count (faceCounter : Z) (f : Frame) : Z :=
  int_wrap (faceCounter + Z.of_nat (length (faces f))).

Definition counter_text (faceCounter : Z) : string :=
  "Faces found so far: " +:+ pretty faceCounter.

Definition shown_events (faceCounter : Z) (img : Mat) (f : Frame) : list Event :=
  [EvRender; EvPutText (counter_text (next_count faceCounter f)) 15 15;
   EvPutText "press any key to stop" 10 (int_sub (rows img) 20); EvImshow].

(** [loop_run env tr prev reads fc seq n evs r seq' n']: started on the
    reads [reads] with face counter [fc], a session holding [seq] and [n]
    key polls made, the loop makes the calls [evs], ends with [r], and
    leaves the session holding [seq'] after [n'] polls.  One rule per path
    through the body of the loop; [main_loop_run] below shows that every
    run of [main_loop] is of this form. *)
Inductive loop_run (env : Env) (tr : Tracker) (prev : bool) :
  list (Result Pull) → Z → list Frame → nat →
  list Event → Result unit → list Frame → nat → Prop :=
| run_end fc seq n :
    loop_run env tr prev [] fc seq n [EvRead] (Ok tt) seq n
| run_read_fails r0 rest fc seq n r :
    failed r0 r →
    loop_run env tr prev (r0 :: rest) fc seq n [EvRead] r seq n
| run_skip img rest fc seq n evs r seq' n' :
    loop_run env tr prev rest fc seq n evs r seq' n' →
    loop_run env tr prev (Ok (mkPull false img) :: rest) fc seq n
      (EvRead :: EvIsUpdated false :: evs) r seq' n'
| run_track_fails img rest fc seq n r :
    failed (tr seq img) r →
    loop_run env tr prev (Ok (mkPull true img) :: rest) fc seq n
      [EvRead; EvIsUpdated true; EvGetFrame; EvAddFrame img None] r seq n
| run_quiet img rest fc seq n f evs r seq' n' :
    prev = false →
    tr seq img = Ok f →
    loop_run env tr prev rest fc (seq ++ [f]) n evs r seq' n' →
    loop_run env tr prev (Ok (mkPull true img) :: rest) fc seq n
      (pushed_events img f ++ evs) r seq' n'
| run_show_fails img rest fc seq n f r :
    prev = true →
    tr seq img = Ok f →
    failed (imshow env) r →
    loop_run env tr prev (Ok (mkPull true img) :: rest) fc seq n
      (pushed_events img f ++ shown_events fc img f) r (seq ++ [f]) n
| run_key img rest fc seq n f :
    prev = true →
    tr seq img = Ok f →
    imshow env = Ok tt →
    (waitKey env n >=? 0) = true →
    loop_run env tr prev (Ok (mkPull true img) :: rest) fc seq n
      (pushed_events img f ++ shown_events fc img f ++ [EvWaitKey (waitKey env n)])
      (Ok tt) (seq ++ [f]) (S n)
| run_next img rest fc seq n f evs r seq' n' :
    prev = true →
    tr seq img = Ok f →
    imshow env = Ok tt →
    (waitKey env n >=? 0) = false →
    loop_run env tr prev rest (next_count fc f) (seq ++ [f]) (S n) evs r seq' n' →
    loop_run env tr prev (Ok (mkPull true img) :: rest) fc seq n
      (pushed_events img f ++ shown_events fc img f ++
       EvWaitKey (waitKey env n) :: evs) r seq' n'.

(** The calls made before the loop. *)
Definition is_setup_event (e : Event) : bool :=
  match e with
  | EvSflCreate _ _ | EvVsfCreate _ _ | EvOpen => true
  | _ => false
  end.

(** The calls to the display. *)
Definition is_gui_event (e : Event) : bool :=
  match e with
  | EvRender | EvPutText _ _ _ | EvImshow | EvWaitKey _ => true
  | _ => false
  end.

(** The number of calls to [vs->read()] in a trace. *)
Definition reads_made (evs : list Event) : nat :=
  length (List.filter (λ e, match e with EvRead => true | _ => false end) evs).

(** The texts drawn at [(15, 15)], where the face counter is shown. *)
Definition counter_texts (evs : list Event) : list string :=
  omap (λ e, match e with
             | EvPutText msg x _ => if x =? 15 then Some msg else None
             | _ => None
             end) evs.

(** The sums [acc + n1], [acc + n1 + n2], ... of a list of numbers. *)
Fixpoint running_totals (acc : Z) (l : list Z) : list Z :=
  match l with
  | [] => []
  | n :: rest => (acc + n) :: running_totals (acc + n) rest
  end.

Definition face_count (f : Frame) : Z := Z.of_nat (length (faces f)).

(** Feeding images to a tracker one after the other, each with the results
    so far; [None] when the tracker fails on one of them. *)
Fixpoint track (tr : Tracker) (seq : list Frame) (imgs : list Mat)
  : option (list Frame) :=
  match imgs with
  | [] => Some []
  | img :: rest =>
      match tr seq img with
      | Ok f => (f ::.) <$> track tr (seq ++ [f]) rest
      | _ => None
      end
  end.

(** A fourth sample environment: a source that reports two pulls, none of
    them updated; its tracker and its display would fail if they were
    used. *)
Definition ex_idle_env : Env :=
  mkEnv (λ d, d) (λ _ _, Ok (λ _ _, Throw "no model"))
        (λ _, Ok (Some (mkStream (Ok true)
                          [Ok (mkPull false (ex_image 1));
                           Ok (mkPull false (ex_image 1))])))
        (Throw "no display") (λ _, 27) (Ok tt).

(** A fifth sample environment: the recording of [ex_env], with a key
    pressed at the first poll. *)
Definition ex_key_env : Env :=
  mkEnv (λ d, d) (λ _ _, Ok ex_tracker) (λ _, Ok (Some ex_stream))
        (Ok tt) (λ _, 27) (Ok tt).

(** A sixth sample environment: a source that does not open, and a seventh:
    a model that cannot be loaded. *)
Definition ex_closed_env : Env :=
  mkEnv (λ d, d) (λ _ _, Ok ex_tracker)
        (λ _, Ok (Some (mkStream (Ok false) []))) (Ok tt) (λ _, -1) (Ok tt).

Definition ex_no_model_env : Env :=
  mkEnv (λ d, d) (λ _ _, Throw "Failed to load landmarks model")
        (λ _, Ok (Some ex_stream)) (Ok tt) (λ _, -1) (Ok tt).

(** A face and a frame with every landmark incremented. *)
Definition increment_face (f : Face) : Face :=
  set_landmarks (increment <$> landmarks f) f.

Definition increment_frame (fr : Frame) : Frame :=
  set_faces (increment_face <$> faces fr) fr.

(** ** The conversion of the scale, and the steps of argument parsing *)

(** The C conversion [(float)d] of a [double] to the nearest [float], ties
    to even (the default rounding of IEEE 754), on the bit patterns: an
    infinity stays one, a NaN becomes a quiet NaN, a value too large
    becomes an infinity and a value too small a subnormal or a zero. *)
Definition float_cast (d : double) : float :=
  let sign := Z.shiftl (Z.shiftr d 63) 31 in
  let e := Z.land (Z.shiftr d 52) 2047 in
  let m := Z.land d (2 ^ 52 - 1) in
  if e =? 2047 then
    if m =? 0 then sign + 2139095040
    else sign + 2143289344 + Z.shiftr m 29
  else
    let significand := if e =? 0 then m else 2 ^ 52 + m in
    let exponent := if e =? 0 then -1074 else e - 1075 in
    if significand =? 0 then sign else
    let q := Z.max (exponent + Z.log2 significand - 23) (-149) in
    let shift := q - exponent in
    let kept := Z.shiftr significand shift in
    let rest := Z.land significand (2 ^ shift - 1) in
    let half := 2 ^ (shift - 1) in
    let rounded :=
      if (rest >? half) || ((rest =? half) && Z.odd kept) then kept + 1
      else kept in
    sign + Z.min ((q + 149) * 2 ^ 23 + rounded) 2139095040.

(** The double [0.5] as a host scalar, and the environment of [ex_env]
    with the conversion above. *)
Definition ex_half : mxArray :=
  mkArg mxDOUBLE_CLASS (MexError "mexopencv:error" "MxArray not of type char")
        (Ok 0) (Ok 4602678819172646912) (Ok true).

Definition ex_cast_env : Env :=
  mkEnv float_cast (sfl_create ex_env) (vsf_create ex_env) (imshow ex_env)
        (waitKey ex_env) (destroyWindow ex_env).






(** * Properties *)

(** ** The handler *)

Lemma mexFunction_throw env prhs w what w' :
  body env prhs w = (Throw what, w') →
  mexFunction env prhs w = (Errored parsing_id ("Error: " +:+ what), w').
Proof. unfold mexFunction. by intros ->. Qed.

Lemma mexFunction_returned env prhs w o w' :
  mexFunction env prhs w = (Returned o, w') →
  body env prhs w = (Ok tt, w') ∧ o = plhs0 w'.
Proof.
  unfold mexFunction.
  destruct (body env prhs w) as [[[]| |] w1]; intros [= <- <-]; done.
Qed.

(** An exception thrown while parsing leaves the body at once. *)
Lemma body_parse_throw env prhs w what w' :
  parse_arguments env prhs w = (Throw what, w') →
  body env prhs w = (Throw what, w').
Proof. unfold body, bind. by intros ->. Qed.

(** ** Argument count and the first argument *)

Section two_arguments.
Context (env : Env) (a0 a1 : mxArray) (rest : list mxArray).

Let nrhs := Z.of_nat (length (a0 :: a1 :: rest)).

Lemma nrhs_at_least_two : (nrhs =? 0) = false ∧ (nrhs <? 2) = false.
Proof.
  subst nrhs. cbn [length]. split.
  - apply Z.eqb_neq. lia.
  - apply Z.ltb_ge. lia.
Qed.

(** With two arguments or more, parsing starts at the test of the first
    argument. *)
Lemma parse_arguments_two :
  parse_arguments env (a0 :: a1 :: rest) =
  if negb (isChar a0) then throw msg_model_path else
  model <- access (toString a0) ;;
  if isChar a1 then
    path <- access (toString a1) ;;
    scale <- (if nrhs >? 2
              then d <- access (toDouble (arg (a0 :: a1 :: rest) 2)) ;;
                   ret (float_of_double env d)
              else ret float_one) ;;
    prev <- (if nrhs >? 3 then access (toBool (arg (a0 :: a1 :: rest) 3))
             else ret true) ;;
    ret (mkParams path model (-1) 0 0 scale prev)
  else if isInt32 a1 || isDouble a1 then
    dev <- access (toInt a1) ;;
    w <- (if nrhs >? 2 then access (toInt (arg (a0 :: a1 :: rest) 2))
          else ret 0) ;;
    h <- (if nrhs >? 3 then access (toInt (arg (a0 :: a1 :: rest) 3))
          else ret 0) ;;
    scale <- (if nrhs >? 4
              then d <- access (toDouble (arg (a0 :: a1 :: rest) 4)) ;;
                   ret (float_of_double env d)
              else ret float_one) ;;
    ret (mkParams "" model dev w h scale true)
  else throw msg_second_parameter.
Proof.
  unfold parse_arguments. fold nrhs.
  destruct nrhs_at_least_two as [-> ->]. reflexivity.
Qed.
End two_arguments.

(** ** Validation of the arguments *)

(** C8: a call without arguments fails with the "no parameters" error and a
    call with one argument with the "invalid parameter count" error; in
    both cases the state is untouched (no collaborator is called, no array
    is created) and the host gets no value. *)
Theorem missing_arguments env w :
  mexFunction env [] w =
    (Errored parsing_id ("Error: " +:+ msg_no_parameters), w) ∧
  ∀ a, mexFunction env [a] w =
         (Errored parsing_id ("Error: " +:+ msg_parameter_count), w).
Proof. split; reflexivity. Qed.

(** C9: with two arguments or more, a first argument that is not a char
    array makes the call fail with the "modelFile must be a string" error,
    whatever the other arguments are; the state is untouched. *)
Theorem model_path_not_string env a0 a1 rest w :
  isChar a0 = false →
  mexFunction env (a0 :: a1 :: rest) w =
    (Errored parsing_id ("Error: " +:+ msg_model_path), w).
Proof.
  intros Hchar. apply mexFunction_throw, body_parse_throw.
  rewrite parse_arguments_two, Hchar. reflexivity.
Qed.

Lemma model_path_not_string_witness :
  isChar (ex_scalar mxDOUBLE_CLASS 3) = false ∧
  mexFunction ex_env
    [ex_scalar mxDOUBLE_CLASS 3; ex_string "video.avi"; ex_scalar mxDOUBLE_CLASS 1]
    initial =
    (Errored parsing_id ("Error: " +:+ msg_model_path), initial).
Proof.
  split; [reflexivity |].
  apply (model_path_not_string ex_env (ex_scalar mxDOUBLE_CLASS 3)).
  reflexivity.
Defined.

(** ** Mode selection by the second argument *)

Lemma silent_ret {A} (a : A) : silent (ret a).
Proof. intros w e w'. discriminate. Qed.

Lemma silent_access {A} (r : Result A) :
  returns_or_reports r = true → silent (access r).
Proof. intros Hr w e w'. unfold access. destruct r; discriminate. Qed.

Lemma silent_bind {A B} (m : M A) (k : A → M B) :
  silent m → (∀ a, silent (k a)) → silent (bind m k).
Proof.
  intros Hm Hk w e w'. unfold bind.
  destruct (m w) as [[a|e1|i s] w1] eqn:E.
  - apply Hk.
  - exfalso. exact (Hm _ _ _ E).
  - discriminate.
Qed.

Lemma silent_if {A} (b : bool) (m1 m2 : M A) :
  (b = true → silent m1) → silent m2 → silent (if b then m1 else m2).
Proof. destruct b; auto. Qed.

Lemma silent_elim {A} (m : M A) w e w' :
  silent m → m w = (Throw e, w') → False.
Proof. intros Hm. apply Hm. Qed.

Lemma bind_access_ok {A B} (r : Result A) (a : A) (k : A → M B) w :
  r = Ok a → bind (access r) k w = k a w.
Proof. by intros ->. Qed.

Lemma quiet_no_arg : quiet no_arg = true.
Proof. reflexivity. Qed.

Lemma quiet_arg prhs i : forallb quiet prhs = true → quiet (arg prhs i) = true.
Proof.
  unfold arg. revert i. induction prhs as [|a prhs IH]; intros i Hq.
  - destruct i; apply quiet_no_arg.
  - cbn in Hq. apply andb_prop in Hq as [Ha Hq].
    destruct i; cbn; auto.
Qed.

Lemma quiet_accessors a :
  quiet a = true →
  returns_or_reports (toString a) = true ∧ returns_or_reports (toInt a) = true ∧
  returns_or_reports (toDouble a) = true ∧ returns_or_reports (toBool a) = true.
Proof.
  unfold quiet. intros H.
  repeat (apply andb_prop in H as [H ?]). auto.
Qed.

Ltac silence :=
  repeat first
    [ apply silent_ret
    | apply silent_access
    | apply silent_bind; [| intros ?]
    | apply silent_if; [intros _ |] ].

(** C3 (as amended): with two arguments or more and a char array first
    (whose text the accessor delivers), the "sequence path or device id"
    error is raised if and only if the second argument is neither a char
    array nor an int32 nor a double array.  It is then the outcome of the
    call, with the state untouched; an int32 or double second argument
    selects live-device mode: the device is read from it and no input path
    is set. *)
Theorem second_parameter_error env a0 a1 rest w model :
  isChar a0 = true →
  toString a0 = Ok model →
  forallb quiet (a1 :: rest) = true →
  let unfit := isChar a1 = false ∧ isInt32 a1 = false ∧ isDouble a1 = false in
  (parse_arguments env (a0 :: a1 :: rest) w = (Throw msg_second_parameter, w)
   ↔ unfit) ∧
  (unfit →
   mexFunction env (a0 :: a1 :: rest) w =
     (Errored parsing_id ("Error: " +:+ msg_second_parameter), w)) ∧
  (isInt32 a1 || isDouble a1 = true →
   ∀ prm w', parse_arguments env (a0 :: a1 :: rest) w = (Ok prm, w') →
             toInt a1 = Ok (device prm) ∧ inputPath prm = "").
Proof.
  intros Hc0 Hs0 Hq unfit.
  assert (Hthrow : unfit →
    parse_arguments env (a0 :: a1 :: rest) w = (Throw msg_second_parameter, w)).
  { intros (Hc & Hi & Hd).
    rewrite parse_arguments_two, Hc0, Hc, Hi, Hd. cbn. unfold bind, access.
    rewrite Hs0. reflexivity. }
  assert (Hall : ∀ i, quiet (arg (a0 :: a1 :: rest) (S i)) = true).
  { intros i. change (arg (a0 :: a1 :: rest) (S i)) with (arg (a1 :: rest) i).
    by apply quiet_arg. }
  assert (Hq1 : quiet a1 = true) by exact (Hall 0%nat).
  pose proof (λ i, quiet_accessors _ (Hall i)) as Hacc.
  split; [split; [| exact Hthrow] | split].
  - (* only the last branch throws *)
    intros Hp. rewrite parse_arguments_two, Hc0 in Hp. cbn [negb] in Hp.
    rewrite (bind_access_ok _ _ _ _ Hs0) in Hp.
    destruct (isChar a1) eqn:Hc.
    + exfalso. eapply silent_elim in Hp; [done |].
      silence; apply (Hacc 0%nat) || apply Hacc.
    + destruct (isInt32 a1) eqn:Hi; [| destruct (isDouble a1) eqn:Hd];
        [| | by repeat split].
      all: exfalso; cbn [orb] in Hp; eapply silent_elim in Hp; [done |].
      all: silence; apply (Hacc 0%nat) || apply Hacc.
  - intros Hu. apply mexFunction_throw, body_parse_throw. auto.
  - intros Hnum prm w' Hp.
    assert (Hc : isChar a1 = false).
    { unfold isChar, isInt32, isDouble in *.
      destruct (classID a1); done. }
    rewrite parse_arguments_two, Hc0, Hc, Hnum in Hp. cbn in Hp.
    unfold bind, access in Hp. rewrite Hs0 in Hp.
    destruct (toInt a1) as [dev| |]; [| done | done].
    repeat match type of Hp with
           | context [if ?b then _ else _] => destruct b
           | context [match ?r with Ok _ => _ | _ => _ end] =>
               destruct r; try discriminate
           end; cbn in Hp; injection Hp as <- <-; done.
Qed.

Lemma second_parameter_error_witness :
  let a0 := ex_string "model.dat" in
  let a1 := ex_scalar mxUINT8_CLASS 0 in
  isChar a0 = true ∧ toString a0 = Ok "model.dat" ∧
  forallb quiet [a1] = true ∧
  mexFunction ex_env [a0; a1] initial =
    (Errored parsing_id ("Error: " +:+ msg_second_parameter), initial).
Proof.
  intros a0 a1.
  split; [reflexivity | split; [reflexivity | split; [reflexivity |]]].
  apply (second_parameter_error ex_env a0 a1 [] initial "model.dat");
    [reflexivity | reflexivity | reflexivity |].
  split; [reflexivity | split; reflexivity].
Defined.

(** C3 (as stated) fails: a second argument of class [single] is a number
    for the host, yet the call raises the "sequence path or device id"
    error instead of selecting live-device mode. *)
Lemma numeric_second_argument_rejected :
  let prhs := [ex_string "model.dat"; ex_scalar mxSINGLE_CLASS 0] in
  mxIsNumeric (arg prhs 1) = true ∧
  ¬ (fst (mexFunction ex_env prhs initial) =
       Errored parsing_id ("Error: " +:+ msg_second_parameter)
     ↔ isChar (arg prhs 1) = false ∧ mxIsNumeric (arg prhs 1) = false).
Proof.
  intros prhs. split; [reflexivity |].
  intros [Hraised _]. destruct (Hraised eq_refl) as [_ Hnum]. discriminate Hnum.
Qed.

(** ** The main loop *)

(** The loop stops: the trace is read off the final state. *)
Ltac loop_exit ps :=
  eexists ps, _;
  split; [first [apply prefix_nil | apply prefix_cons, prefix_nil] |];
  split; [cbn; rewrite <- ?app_assoc; reflexivity |];
  cbn; rewrite ?app_nil_r; repeat split; done.

(** The loop goes on: the trace of the rest follows the calls of this
    iteration. *)
Ltac loop_continue p IH Hrun :=
  let ps := fresh "ps" in
  let evs := fresh "evs" in
  apply IH in Hrun as (ps & evs & Hpre & Hc & Hf & Hp & Hs & Hl & He & Hh & Ho);
  eexists (p :: ps), _;
  split; [by apply prefix_cons |];
  split; [rewrite Hc; cbn; rewrite <- ?app_assoc; reflexivity |];
  unfold flags, pushed, results in *; cbn in *;
  rewrite ?Hs, ?Hf, ?Hp, <- ?app_assoc;
  repeat split; try done; intros Hr; specialize (Hl Hr); congruence.

(** What a run of the loop does, whatever its outcome: it consumes a prefix
    [done] of the scripted reads; the flags it saw are those of [done]; it
    pushed the images of the updated pulls of [done], in order, and nothing
    else; the session grew by the results of those pushes. *)
Lemma main_loop_trace env tr prev reads :
  ∀ fc w r w',
    main_loop env tr prev reads fc w = (r, w') →
    ∃ (done : list Pull) (evs : list Event),
      (Ok <$> done) `prefix_of` reads ∧
      calls w' = calls w ++ evs ∧
      flags evs = updated <$> done ∧
      pushed evs = image <$> updated_pulls done ∧
      sequence w' = sequence w ++ results evs ∧
      (r = Ok tt → length (results evs) = length (pushed evs)) ∧
      forallb is_loop_event evs = true ∧
      heap w' = heap w ∧ plhs0 w' = plhs0 w.
Proof.
  induction reads as [|r0 rest IH]; intros fc w r w' Hrun.
  - injection Hrun as <- <-. loop_exit (@nil Pull).
  - cbn [main_loop] in Hrun. unfold bind at 1, call at 1 in Hrun.
    destruct r0 as [p|e|i s].
    2,3: injection Hrun as <- <-; loop_exit (@nil Pull).
    unfold bind at 1, call at 1 in Hrun.
    destruct p as [upd img]. cbn [updated image] in Hrun.
    destruct upd; cbn [negb] in Hrun.
    + (* updated: the frame is pushed *)
      unfold bind at 1, call at 1 in Hrun.
      unfold bind at 1, addFrame at 1 in Hrun.
      cbn [sequence log] in Hrun.
      destruct (tr (sequence w) img) as [f|e|i s] eqn:Htr.
      2,3: injection Hrun as <- <-; loop_exit [mkPull true img].
      destruct prev.
      * do 4 unfold bind at 1, call at 1 in Hrun.
        destruct (imshow env) as [[]|e|i s].
        2,3: injection Hrun as <- <-; loop_exit [mkPull true img].
        unfold bind at 1, poll_key at 1 in Hrun. cbv zeta in Hrun.
        match type of Hrun with
        | context [if ?b then ret tt else _] => destruct b
        end.
        -- injection Hrun as <- <-. loop_exit [mkPull true img].
        -- loop_continue (mkPull true img) IH Hrun.
      * loop_continue (mkPull true img) IH Hrun.
    + (* not updated: continue *)
      loop_continue (mkPull false img) IH Hrun.
Qed.

(** ** The heap *)

Section heap.
Local Open Scope nat_scope.
Implicit Types (h : list mxObj) (p q : ptr) (w : World).

Lemma stable_refl q h : stable q h h.
Proof. split; auto. Qed.

Lemma stable_trans q h1 h2 h3 : stable q h1 h2 → stable q h2 h3 → stable q h1 h3.
Proof.
  intros [L1 K1] [L2 K2]. split; [lia |].
  intros p Hp Hq. rewrite K2, K1; auto. lia.
Qed.

(** A step that only changes an object allocated later. *)
Lemma stable_fresh q q' h1 h2 h3 :
  stable q h1 h2 → stable q' h2 h3 → length h1 ≤ q' → stable q h1 h3.
Proof.
  intros [L1 K1] [L2 K2] Hfresh. split; [lia |].
  intros p Hp Hq. rewrite K2, K1; auto; lia.
Qed.

Lemma stable_alloc q h o : stable q h (h ++ [o]).
Proof.
  split; [rewrite length_app; lia |].
  intros p Hp _. by apply lookup_app_l.
Qed.

Lemma stable_insert q h o : stable q h (<[q := o]> h).
Proof.
  split; [by rewrite length_insert |].
  intros p _ Hq. by apply list_lookup_insert_ne.
Qed.

Lemma stable_lookup q h h' p o :
  stable q h h' → h !! p = Some o → p ≠ q → h' !! p = Some o.
Proof.
  intros [_ K] Hp Hq. rewrite K; auto. by eapply lookup_lt_Some.
Qed.

Lemma heap_only_refl w : heap_only w w.
Proof. by repeat split. Qed.

Lemma heap_only_trans w1 w2 w3 :
  heap_only w1 w2 → heap_only w2 w3 → heap_only w1 w3.
Proof. intros (?&?&?) (?&?&?). repeat split; congruence. Qed.

(** The shapes only depend on objects that a later step keeps. *)
Lemma face_slots_stable q h h' f e r c fs es :
  h !! q = Some (ObjStruct r c fs es) →
  stable q h h' → face_slots h f e → face_slots h' f e.
Proof.
  intros Hq Hst (pl & pb & -> & Hl & Hb). exists pl, pb.
  split; [done |].
  split; eapply stable_lookup; eauto; congruence.
Qed.

Lemma faces_slot_stable q h h' fs slot r c es :
  h !! q = Some (ObjStruct r c frame_fields es) →
  stable q h h' → faces_slot h fs slot → faces_slot h' fs slot.
Proof.
  intros Hq Hst. destruct fs as [|f fs]; [done |].
  intros (pf & fes & -> & Hpf & Hall). exists pf, fes.
  split; [done |]. split.
  - eapply stable_lookup; eauto. intros ->. rewrite Hq in Hpf. discriminate.
  - eapply Forall2_impl; [exact Hall |].
    intros f' e'. exact (face_slots_stable _ _ _ _ _ _ _ _ _ Hq Hst).
Qed.

Lemma frame_slots_stable q h h' fr e r c es :
  h !! q = Some (ObjStruct r c frame_fields es) →
  stable q h h' → frame_slots h fr e → frame_slots h' fr e.
Proof.
  intros Hq Hst (sf & pw & ph & -> & Hw & Hh & Hf). exists sf, pw, ph.
  split; [done |].
  split; [| split]; [eapply stable_lookup; eauto; congruence .. |].
  by eapply faces_slot_stable.
Qed.

(** [mxSetField] on a struct array, a known field and an index in range. *)
Lemma mxSetField_spec pm i name v w r c fs es k e :
  heap w !! pm = Some (ObjStruct r c fs es) →
  field_number fs name = Some k →
  es !! i = Some e →
  ∃ w', mxSetField pm i name v w = w' ∧
    heap w' !! pm = Some (ObjStruct r c fs (<[i := <[k := Some v]> e]> es)) ∧
    stable pm (heap w) (heap w') ∧ length (heap w') = length (heap w) ∧
    sequence w' = sequence w ∧ heap_only w w'.
Proof.
  intros Hpm Hk He. eexists. split; [reflexivity |].
  unfold mxSetField. rewrite Hpm, Hk, He. cbn.
  split; [| split; [| split; [| split]]].
  - apply list_lookup_insert_eq. by eapply lookup_lt_Some.
  - apply stable_insert.
  - apply length_insert.
  - done.
  - by repeat split.
Qed.

Lemma alloc_spec o w :
  ∃ w', alloc o w = (length (heap w), w') ∧
    heap w' !! length (heap w) = Some o ∧
    (∀ q, stable q (heap w) (heap w')) ∧
    (∀ p o', heap w !! p = Some o' → heap w' !! p = Some o') ∧
    length (heap w') = S (length (heap w)) ∧
    sequence w' = sequence w ∧ heap_only w w'.
Proof.
  eexists. split; [reflexivity |]. cbn.
  split; [| split; [| split; [| split; [| split]]]].
  - rewrite lookup_app_r by lia. by rewrite Nat.sub_diag.
  - intros q. apply stable_alloc.
  - intros p o' Hp. rewrite lookup_app_l; [done |]. by eapply lookup_lt_Some.
  - rewrite length_app. cbn. lia.
  - done.
  - by repeat split.
Qed.

(** One face: two arrays are created and attached to element [j] of the
    faces array; the landmarks of that face are incremented in the
    session, the other faces and frames are left alone. *)
Lemma output_face_spec pf i j w fr face m es e :
  sequence w !! i = Some fr → faces fr !! j = Some face →
  heap w !! pf = Some (ObjStruct 1 m face_fields es) →
  es !! j = Some e → length e = 2 →
  ∃ w' e', output_face pf i j w = w' ∧
    heap w' !! pf = Some (ObjStruct 1 m face_fields (<[j := e']> es)) ∧
    face_slots (heap w') face e' ∧
    stable pf (heap w) (heap w') ∧
    (∃ fr', sequence w' !! i = Some fr' ∧
            ∀ j', j' ≠ j → faces fr' !! j' = faces fr !! j') ∧
    (∀ i', i' ≠ i → sequence w' !! i' = sequence w !! i') ∧
    heap_only w w'.
Proof.
  intros Hfr Hface Hpf He Hlen.
  pose proof (lookup_lt_Some _ _ _ Hpf) as Hlt.
  pose proof (lookup_lt_Some _ _ _ He) as Hj.
  unfold output_face. rewrite Hfr. cbn [mbind option_bind]. rewrite Hface.
  cbv zeta. unfold MxArray_Mat, MxArray_Rect.
  change (mat_of_points (increment <$> landmarks face))
    with (landmarks_matrix face).
  change [rect_x (bbox face); rect_y (bbox face); rect_width (bbox face);
          rect_height (bbox face)] with (bbox_row face).
  set (w0 := store_landmarks i j (increment <$> landmarks face) w).
  destruct (alloc_spec (ObjNumeric (length (landmarks_matrix face)) 2
                          (landmarks_matrix face)) w0)
    as (w1 & -> & Hl1 & Hst1 & Hex1 & Hn1 & Hq1 & Ho1).
  destruct (mxSetField_spec pf j "landmarks" (length (heap w0)) w1
              1 m face_fields es 0 e)
    as (w2 & -> & Hpf2 & Hst2 & Hn2 & Hq2 & Ho2);
    [by apply Hex1 | done | done |].
  destruct (alloc_spec (ObjNumeric 1 4 [bbox_row face]) w2)
    as (w3 & -> & Hl3 & Hst3 & Hex3 & Hn3 & Hq3 & Ho3).
  destruct (mxSetField_spec pf j "bbox" (length (heap w2)) w3
              1 m face_fields (<[j := <[0 := Some (length (heap w0))]> e]> es)
              1 (<[0 := Some (length (heap w0))]> e))
    as (w4 & -> & Hpf4 & Hst4 & Hn4 & Hq4 & Ho4);
    [by apply Hex3 | done | by apply list_lookup_insert_eq |].
  exists w4, [Some (length (heap w0)); Some (length (heap w2))].
  split; [done |].
  change (heap w0) with (heap w) in *.
  split; [| split; [| split; [| split; [| split]]]].
  - rewrite Hpf4, list_insert_insert_eq.
    destruct e as [|a [|b [|]]]; done.
  - exists (length (heap w)), (length (heap w2)).
    split; [done |]. split.
    + eapply stable_lookup; [exact Hst4 | | lia].
      apply Hex3. eapply stable_lookup; [exact Hst2 | exact Hl1 | lia].
    + eapply stable_lookup; [exact Hst4 | exact Hl3 | lia].
  - eapply stable_trans; [| exact Hst4].
    eapply stable_trans; [| exact (Hst3 pf)].
    eapply stable_trans; [exact (Hst1 pf) | exact Hst2].
  - rewrite Hq4, Hq3, Hq2, Hq1. cbn.
    rewrite list_lookup_alter_eq, Hfr. cbn. eexists. split; [done |].
    cbn. intros j' Hj'. by rewrite list_lookup_alter_ne.
  - intros i' Hi'. rewrite Hq4, Hq3, Hq2, Hq1. cbn.
    by rewrite list_lookup_alter_ne.
  - assert (heap_only w w0) by by repeat split.
    repeat (eapply heap_only_trans; [| eassumption]). done.
Qed.

(** The loop over the faces of frame [i], from face [j] on: the elements
    before [j] are kept, those from [j] on are filled. *)
Lemma faces_loop pf i m fs0 :
  ∀ c j w es,
    (∃ fr, sequence w !! i = Some fr ∧
           ∀ j', j ≤ j' → faces fr !! j' = fs0 !! j') →
    length fs0 = j + c →
    heap w !! pf = Some (ObjStruct 1 m face_fields es) →
    length es = j + c →
    (∀ j', j ≤ j' → j' < j + c → es !! j' = Some [None; None]) →
    ∃ w' es', for_each c j (output_face pf i) w = w' ∧
      heap w' !! pf = Some (ObjStruct 1 m face_fields es') ∧
      length es' = j + c ∧
      (∀ j', j' < j → es' !! j' = es !! j') ∧
      (∀ j' f, j ≤ j' → fs0 !! j' = Some f →
               ∃ e, es' !! j' = Some e ∧ face_slots (heap w') f e) ∧
      stable pf (heap w) (heap w') ∧
      (∀ i', i' ≠ i → sequence w' !! i' = sequence w !! i') ∧
      heap_only w w'.
Proof.
  induction c as [|c IH]; intros j w es (fr & Hfr & Hrest) Hlen Hpf Hes Hnull.
  - exists w, es. cbn [for_each].
    repeat split; auto using stable_refl.
    intros j' f Hj' Hf. apply lookup_lt_Some in Hf. lia.
  - cbn [for_each].
    destruct (lookup_lt_is_Some_2 fs0 j) as [face Hface]; [lia |].
    destruct (output_face_spec pf i j w fr face m es [None; None])
      as (w1 & e' & -> & Hpf1 & Hslots & Hst1 & (fr1 & Hfr1 & Hoth) & Hseq1 & Ho1);
      [done | by rewrite Hrest | done | apply Hnull; lia | done |].
    destruct (IH (S j) w1 (<[j := e']> es))
      as (w' & es' & -> & Hpf' & Hlen' & Hkeep & Hfill & Hst' & Hseq' & Ho');
      [| lia | done | rewrite length_insert; lia | |].
    { exists fr1. split; [done |]. intros j' Hj'.
      rewrite Hoth by lia. apply Hrest. lia. }
    { intros j' Hj' Hj''. rewrite list_lookup_insert_ne by lia.
      apply Hnull; lia. }
    exists w', es'. split; [done |].
    split; [done |]. split; [lia |].
    split; [| split; [| split; [| split]]].
    + intros j' Hj'. rewrite Hkeep by lia. apply list_lookup_insert_ne. lia.
    + intros j' f Hj' Hf. destruct (decide (j' = j)) as [-> | Hne].
      * exists e'. split.
        -- rewrite Hkeep by lia. apply list_lookup_insert_eq. lia.
        -- assert (f = face) as -> by congruence.
           eapply face_slots_stable; [exact Hpf1 | exact Hst' | exact Hslots].
      * apply Hfill; [lia | done].
    + eapply stable_trans; eassumption.
    + intros i' Hi'. rewrite Hseq', Hseq1; auto.
    + eapply heap_only_trans; eassumption.
Qed.

(** One frame: its element of the output array gets its width and height
    and, unless the frame has no face, a filled faces array. *)
Lemma output_frame_spec out i w fr n es :
  sequence w !! i = Some fr →
  heap w !! out = Some (ObjStruct 1 n frame_fields es) →
  es !! i = Some [None; None; None] →
  ∃ w' e', output_frame out i w = w' ∧
    heap w' !! out = Some (ObjStruct 1 n frame_fields (<[i := e']> es)) ∧
    frame_slots (heap w') fr e' ∧
    stable out (heap w) (heap w') ∧
    (∀ i', i' ≠ i → sequence w' !! i' = sequence w !! i') ∧
    heap_only w w'.
Proof.
  intros Hfr Hout He.
  pose proof (lookup_lt_Some _ _ _ Hout) as Hlt.
  pose proof (lookup_lt_Some _ _ _ He) as Hi.
  unfold output_frame. rewrite Hfr. unfold MxArray_int.
  destruct (alloc_spec (ObjNumeric 1 1 [[width fr]]) w)
    as (w1 & -> & Hl1 & Hst1 & Hex1 & Hn1 & Hq1 & Ho1).
  destruct (mxSetField_spec out i "width" (length (heap w)) w1
              1 n frame_fields es 1 [None; None; None])
    as (w2 & -> & Hout2 & Hst2 & Hn2 & Hq2 & Ho2);
    [by apply Hex1 | done | done |].
  destruct (alloc_spec (ObjNumeric 1 1 [[height fr]]) w2)
    as (w3 & -> & Hl3 & Hst3 & Hex3 & Hn3 & Hq3 & Ho3).
  set (pw := length (heap w)) in *. set (ph := length (heap w2)) in *.
  destruct (mxSetField_spec out i "height" ph w3 1 n frame_fields
              (<[i := [None; Some pw; None]]> es) 2 [None; Some pw; None])
    as (w4 & -> & Hout4 & Hst4 & Hn4 & Hq4 & Ho4);
    [apply Hex3; exact Hout2 | done | by apply list_lookup_insert_eq |].
  rewrite list_insert_insert_eq in Hout4. cbn in Hout4.
  assert (Hw4 : heap w4 !! pw = Some (ObjNumeric 1 1 [[width fr]])).
  { eapply stable_lookup; [exact Hst4 | | lia].
    apply Hex3. eapply stable_lookup; [exact Hst2 | exact Hl1 | lia]. }
  assert (Hh4 : heap w4 !! ph = Some (ObjNumeric 1 1 [[height fr]])).
  { eapply stable_lookup; [exact Hst4 | exact Hl3 | lia]. }
  assert (Hst04 : stable out (heap w) (heap w4)).
  { eapply stable_trans; [| exact Hst4].
    eapply stable_trans; [| exact (Hst3 out)].
    eapply stable_trans; [exact (Hst1 out) | exact Hst2]. }
  assert (Ho04 : heap_only w w4).
  { repeat (eapply heap_only_trans; [| eassumption]). apply heap_only_refl. }
  assert (Hq04 : sequence w4 = sequence w) by congruence.
  destruct (faces fr) as [|f fs] eqn:Hfaces.
  - (* no face: continue *)
    exists w4, [None; Some pw; Some ph].
    split; [done |]. split; [done |].
    split; [| split; [done | split; [intros; by rewrite Hq04 | done]]].
    exists None, pw, ph. rewrite Hfaces. by repeat split.
  - unfold mxCreateStructArray. rewrite Nat.mul_1_l.
    set (m := length (f :: fs)).
    set (blank := replicate m (replicate (length face_fields) (@None ptr))).
    destruct (alloc_spec (ObjStruct 1 m face_fields blank) w4)
      as (w5 & -> & Hl5 & Hst5 & Hex5 & Hn5 & Hq5 & Ho5).
    set (pf := length (heap w4)) in *.
    destruct (mxSetField_spec out i "faces" pf w5 1 n frame_fields
                (<[i := [None; Some pw; Some ph]]> es) 0 [None; Some pw; Some ph])
      as (w6 & -> & Hout6 & Hst6 & Hn6 & Hq6 & Ho6);
      [apply Hex5; exact Hout4 | done | by apply list_lookup_insert_eq |].
    rewrite list_insert_insert_eq in Hout6. cbn in Hout6.
    assert (Hpf6 : heap w6 !! pf = Some (ObjStruct 1 m face_fields blank)).
    { eapply stable_lookup; [exact Hst6 | exact Hl5 | lia]. }
    destruct (faces_loop pf i m (f :: fs) m 0 w6 blank)
      as (w' & es' & -> & Hpf' & Hlen' & _ & Hfill & Hst' & Hseq' & Ho');
      [| done | done | apply length_replicate | |].
    { exists fr. split; [congruence |]. intros j' _. by rewrite Hfaces. }
    { intros j' _ Hj'. by apply lookup_replicate_2. }
    assert (Hst46 : stable out (heap w4) (heap w6)).
    { eapply stable_trans; [exact (Hst5 out) | exact Hst6]. }
    exists w', [Some pf; Some pw; Some ph].
    split; [done |].
    split; [| split; [| split; [| split]]].
    + eapply stable_lookup; [exact Hst' | exact Hout6 | lia].
    + exists (Some pf), pw, ph. split; [done |].
      split; [| split].
      * eapply stable_lookup; [exact Hst' | | lia].
        eapply stable_lookup; [exact Hst46 | exact Hw4 | lia].
      * eapply stable_lookup; [exact Hst' | | lia].
        eapply stable_lookup; [exact Hst46 | exact Hh4 | lia].
      * rewrite Hfaces. exists pf, es'. split; [done |]. split; [done |].
        apply Forall2_same_length_lookup_2; [by rewrite Hlen' |].
        intros j' x y Hx Hy.
        destruct (Hfill j' x) as (e & He' & Hslots); [lia | done |].
        congruence.
    + eapply stable_fresh; [| exact Hst' | lia].
      eapply stable_trans; [exact Hst04 | exact Hst46].
    + intros i' Hi'. rewrite Hseq' by done. congruence.
    + repeat (eapply heap_only_trans; [| eassumption]). done.
Qed.

(** The loop over the frames, from frame [i] on. *)
Lemma frames_loop out n frs0 :
  ∀ c i w es,
    (∀ i', i ≤ i' → sequence w !! i' = frs0 !! i') →
    length frs0 = i + c →
    heap w !! out = Some (ObjStruct 1 n frame_fields es) →
    length es = i + c →
    (∀ i', i ≤ i' → i' < i + c → es !! i' = Some [None; None; None]) →
    ∃ w' es', for_each c i (output_frame out) w = w' ∧
      heap w' !! out = Some (ObjStruct 1 n frame_fields es') ∧
      length es' = i + c ∧
      (∀ i', i' < i → es' !! i' = es !! i') ∧
      (∀ i' fr, i ≤ i' → frs0 !! i' = Some fr →
                ∃ e, es' !! i' = Some e ∧ frame_slots (heap w') fr e) ∧
      stable out (heap w) (heap w') ∧
      heap_only w w'.
Proof.
  induction c as [|c IH]; intros i w es Hrest Hlen Hout Hes Hnull.
  - exists w, es. cbn [for_each].
    repeat split; auto using stable_refl.
    intros i' fr Hi' Hfr. apply lookup_lt_Some in Hfr. lia.
  - cbn [for_each].
    destruct (lookup_lt_is_Some_2 frs0 i) as [fr Hfr]; [lia |].
    destruct (output_frame_spec out i w fr n es)
      as (w1 & e' & -> & Hout1 & Hslots & Hst1 & Hseq1 & Ho1);
      [by rewrite Hrest | done | apply Hnull; lia |].
    destruct (IH (S i) w1 (<[i := e']> es))
      as (w' & es' & -> & Hout' & Hlen' & Hkeep & Hfill & Hst' & Ho');
      [| lia | done | rewrite length_insert; lia | |].
    { intros i' Hi'. rewrite Hseq1 by lia. apply Hrest. lia. }
    { intros i' Hi' Hi''. rewrite list_lookup_insert_ne by lia.
      apply Hnull; lia. }
    exists w', es'. split; [done |].
    split; [done |]. split; [lia |].
    split; [| split; [| split]].
    + intros i' Hi'. rewrite Hkeep by lia. apply list_lookup_insert_ne. lia.
    + intros i' fr' Hi' Hfr'. destruct (decide (i' = i)) as [-> | Hne].
      * exists e'. split.
        -- rewrite Hkeep by lia. apply list_lookup_insert_eq. lia.
        -- assert (fr' = fr) as -> by congruence.
           eapply frame_slots_stable; [exact Hout1 | exact Hst' | exact Hslots].
      * apply Hfill; [lia | done].
    + eapply stable_trans; eassumption.
    + eapply heap_only_trans; eassumption.
Qed.

(** The output conversion: [plhs[0]] is a new array whose elements have
    the shape of the frames of the session, in order. *)
Lemma output_results_spec w :
  ∃ w' es, output_results w = w' ∧
    plhs0 w' = Some (length (heap w)) ∧
    heap w' !! length (heap w) =
      Some (ObjStruct 1 (length (sequence w)) frame_fields es) ∧
    Forall2 (frame_slots (heap w')) (sequence w) es ∧
    calls w' = calls w ∧ polls w' = polls w.
Proof.
  unfold output_results, mxCreateStructArray. rewrite Nat.mul_1_l.
  set (n := length (sequence w)).
  set (blank := replicate n (replicate (length frame_fields) (@None ptr))).
  destruct (alloc_spec (ObjStruct 1 n frame_fields blank) w)
    as (w1 & -> & Hl1 & Hst1 & Hex1 & Hn1 & Hq1 & Ho1).
  set (out := length (heap w)) in *.
  destruct (frames_loop out n (sequence w) n 0 (with_plhs0 out w1) blank)
    as (w' & es' & -> & Hout' & Hlen' & _ & Hfill & Hst' & Ho');
    [by intros; cbn; rewrite Hq1 | done | done | apply length_replicate | |].
  { intros i' _ Hi'. by apply lookup_replicate_2. }
  exists w', es'. split; [done |].
  destruct Ho' as (Hp & Hc & Hk). destruct Ho1 as (_ & Hc1 & Hk1).
  cbn in Hp, Hc, Hk.
  split; [done |]. split; [done |].
  split; [| split; congruence].
  apply Forall2_same_length_lookup_2; [by rewrite Hlen' |].
  intros i' x y Hx Hy.
  destruct (Hfill i' x) as (e & He' & Hslots); [lia | done |].
  congruence.
Qed.
End heap.

(** ** Reading the output back *)

Section read_back.
Local Open Scope nat_scope.
Implicit Types (h : list mxObj) (p : ptr).

Lemma read_back_numeric n h p r c d :
  h !! p = Some (ObjNumeric r c d) →
  read_back (S n) h p = Some (MxNumeric r c d).
Proof. intros Hp. cbn [read_back]. by rewrite Hp. Qed.

Lemma read_back_struct n h p r c fs es es' :
  h !! p = Some (ObjStruct r c fs es) →
  mapM (mapM (read_slot (read_back n h))) es = Some es' →
  read_back (S n) h p = Some (MxStruct r c fs es').
Proof. intros Hp Hes. cbn [read_back]. rewrite Hp, Hes. done. Qed.

Lemma read_slot_numeric n h p r c d :
  h !! p = Some (ObjNumeric r c d) →
  read_slot (read_back (S n) h) (Some p) = Some (Some (MxNumeric r c d)).
Proof.
  intros Hp. unfold read_slot. by rewrite (read_back_numeric _ _ _ _ _ _ Hp).
Qed.

Lemma read_face n h f e :
  face_slots h f e →
  mapM (read_slot (read_back (S n) h)) e = Some (host_face f).
Proof.
  intros (pl & pb & -> & Hl & Hb). apply mapM_Some_2.
  repeat constructor; by apply read_slot_numeric.
Qed.

Lemma read_faces_slot n h fs slot :
  faces_slot h fs slot →
  read_slot (read_back (S (S n)) h) slot =
    Some match fs with
         | [] => None
         | _ :: _ => Some (MxStruct 1 (length fs) face_fields (host_face <$> fs))
         end.
Proof.
  destruct fs as [|f fs]; [by intros -> |].
  intros (pf & es & -> & Hpf & Hall). unfold read_slot.
  erewrite read_back_struct; [done | exact Hpf |].
  apply mapM_Some_2, Forall2_fmap_r, Forall2_flip.
  eapply Forall2_impl; [exact Hall |].
  intros f' e'. apply read_face.
Qed.

Lemma read_frame n h fr e :
  frame_slots h fr e →
  mapM (read_slot (read_back (S (S n)) h)) e = Some (host_frame fr).
Proof.
  intros (sf & pw & ph & -> & Hw & Hh & Hf). apply mapM_Some_2.
  repeat constructor; [by apply read_faces_slot | by apply read_slot_numeric ..].
Qed.

Lemma read_frames n h p frs es :
  h !! p = Some (ObjStruct 1 (length frs) frame_fields es) →
  Forall2 (frame_slots h) frs es →
  read_back (3 + n) h p = Some (host_frames frs).
Proof.
  intros Hp Hall. eapply read_back_struct; [exact Hp |].
  apply mapM_Some_2, Forall2_fmap_r, Forall2_flip.
  eapply Forall2_impl; [exact Hall |].
  intros fr e. apply read_frame.
Qed.
End read_back.

(** ** A whole run *)

Lemma pure_ret {A} (a : A) : pure (ret a).
Proof. by intros w r w' [= _ <-]. Qed.

Lemma pure_throw {A} msg : pure (@throw A msg).
Proof. by intros w r w' [= _ <-]. Qed.

Lemma pure_access {A} (r : Result A) : pure (access r).
Proof. by intros w r' w' [= _ <-]. Qed.

Lemma pure_bind {A B} (m : M A) (k : A → M B) :
  pure m → (∀ a, pure (k a)) → pure (bind m k).
Proof.
  intros Hm Hk w r w'. unfold bind.
  destruct (m w) as [[a|e|i s] w1] eqn:E; apply Hm in E as ->.
  - apply Hk.
  - by intros [= _ <-].
  - by intros [= _ <-].
Qed.

Lemma pure_if {A} (b : bool) (m1 m2 : M A) :
  pure m1 → pure m2 → pure (if b then m1 else m2).
Proof. by destruct b. Qed.

(** Parsing touches neither the heap nor any collaborator. *)
Lemma parse_arguments_pure env prhs : pure (parse_arguments env prhs).
Proof.
  unfold parse_arguments.
  repeat first
    [ apply pure_ret | apply pure_throw | apply pure_access
    | apply pure_if | apply pure_bind; [| intros ?] ].
Qed.

(** A run that returns: the arguments were accepted, the session and the
    source were created and opened, the loop ran over a prefix [done] of
    the pulls, and the output was written from what the session had
    accumulated. *)
Lemma body_returns env prhs w' :
  body env prhs initial = (Ok tt, w') →
  ∃ prm vs (done : list Pull) (evs : list Event) (out : ptr),
    parse_arguments env prhs initial = (Ok prm, initial) ∧
    vsf_create env (inputPath prm) = Ok (Some vs) ∧
    (Ok <$> done) `prefix_of` vs_reads vs ∧
    calls w' =
      [EvSflCreate (landmarksModelPath prm) (frame_scale prm);
       EvVsfCreate (inputPath prm) false; EvOpen] ++ evs ++ [EvDestroyWindow] ∧
    forallb is_loop_event evs = true ∧
    flags (calls w') = updated <$> done ∧
    pushed (calls w') = image <$> updated_pulls done ∧
    length (results (calls w')) = length (pushed (calls w')) ∧
    plhs0 w' = Some out ∧
    ∀ n, read_back (3 + n) (heap w') out = Some (host_frames (results (calls w'))).
Proof.
  unfold body. unfold bind at 1.
  destruct (parse_arguments env prhs initial) as [[prm|e|i s] w1] eqn:Hparse;
    [| done | done].
  pose proof (parse_arguments_pure _ _ _ _ _ Hparse) as ->.
  unfold bind at 1, create_session.
  destruct (sfl_create env _ _) as [sfl|e|i s]; [| done | done].
  unfold bind at 1, create_source, call at 1.
  destruct (vsf_create env (inputPath prm)) as [[vs|]|e|i s] eqn:Hvs;
    [| done | done | done].
  unfold bind at 1, call at 1.
  destruct (vs_open vs) as [[|]|e|i s]; [| done | done | done].
  cbn [negb]. unfold bind at 1.
  match goal with
  | |- context [main_loop ?a ?b ?c ?d ?e ?w] =>
      destruct (main_loop a b c d e w) as [[[]|e1|i1 s1] w5] eqn:Hloop
  end; [| done | done].
  apply main_loop_trace in Hloop
    as (done & evs & Hpre & Hc & Hf & Hp & Hs & Hl & He & Hh & Ho).
  specialize (Hl eq_refl). cbn in Hc, Hs, Hh, Ho.
  unfold bind at 1.
  destruct (output_results_spec w5) as (w6 & es & -> & Hout & Hobj & Hall & Hc6 & _).
  unfold call. destruct (destroyWindow env) as [[]|e|i s]; [| done | done].
  intros [= <-].
  rewrite Hh in Hout, Hobj. cbn in Hout, Hobj.
  assert (Hcalls : calls (log EvDestroyWindow w6) =
    [EvSflCreate (landmarksModelPath prm) (frame_scale prm);
     EvVsfCreate (inputPath prm) false; EvOpen] ++ evs ++ [EvDestroyWindow]).
  { cbn. by rewrite Hc6, Hc. }
  assert (Hres : results (calls (log EvDestroyWindow w6)) = results evs).
  { rewrite Hcalls. unfold results. cbn. rewrite omap_app. cbn. by rewrite app_nil_r. }
  assert (Hpush : pushed (calls (log EvDestroyWindow w6)) = pushed evs).
  { rewrite Hcalls. unfold pushed. cbn. rewrite omap_app. cbn. by rewrite app_nil_r. }
  assert (Hflags : flags (calls (log EvDestroyWindow w6)) = flags evs).
  { rewrite Hcalls. unfold flags. cbn. rewrite omap_app. cbn. by rewrite app_nil_r. }
  exists prm, vs, done, evs, 0%nat.
  rewrite Hres, Hpush, Hflags.
  repeat split; try done.
  intros n. cbn [heap log]. eapply read_frames; [| rewrite Hs in Hall; exact Hall].
  by rewrite Hs in Hobj.
Qed.

(** How far a run gets, whatever its outcome: it stops while parsing, or
    at the creation of the session, or at the creation of the source, or
    it opens the source and from then on only makes calls of the loop and
    the final clean-up. *)
Lemma body_stages env prhs w r w' :
  body env prhs w = (r, w') →
  (∃ pr, parse_arguments env prhs w = (pr, w) ∧ w' = w) ∨
  ∃ prm, parse_arguments env prhs w = (Ok prm, w) ∧
    let created := EvSflCreate (landmarksModelPath prm) (frame_scale prm) in
    calls w' = calls w ++ [created] ∨
    (∃ null,
        calls w' = calls w ++ [created; EvVsfCreate (inputPath prm) null] ∧
        heap w' = heap w ∧ plhs0 w' = plhs0 w ∧
        (null = true → r = Throw msg_no_source)) ∨
    (∃ tail (done : list Pull),
        calls w' =
          calls w ++ [created; EvVsfCreate (inputPath prm) false; EvOpen] ++ tail ∧
        flags tail = updated <$> done ∧
        pushed tail = image <$> updated_pulls done ∧
        ∀ e, In e tail → is_loop_event e = true ∨ e = EvDestroyWindow).
Proof.
  unfold body. unfold bind at 1.
  destruct (parse_arguments env prhs w) as [pr w1] eqn:Hparse.
  pose proof (parse_arguments_pure _ _ _ _ _ Hparse) as ->.
  destruct pr as [prm|e|i s]; [| intros [= <- <-]; eauto ..].
  intros Hrun. right. exists prm. split; [done |]. cbv zeta.
  revert Hrun. unfold bind at 1, create_session.
  destruct (sfl_create env _ _) as [sfl|e|i s];
    [| intros [= <- <-]; by left ..].
  unfold bind at 1, create_source, call at 1.
  destruct (vsf_create env (inputPath prm)) as [[vs|]|e|i s] eqn:Hvs.
  2-4: intros [= <- <-]; right; left; eexists; cbn;
       rewrite <- app_assoc; by repeat split.
  unfold bind at 1, call at 1.
  assert (Hnil : ∀ e : Event, In e [] → is_loop_event e = true ∨ e = EvDestroyWindow)
    by by intros e [].
  destruct (vs_open vs) as [[|]|e|i s].
  2-4: intros [= <- <-]; right; right; exists [], []; cbn;
       rewrite <- !app_assoc; by repeat split.
  cbn [negb]. unfold bind at 1.
  match goal with
  | |- context [main_loop ?a ?b ?c ?d ?e ?w] =>
      destruct (main_loop a b c d e w) as [lr w5] eqn:Hloop
  end.
  apply main_loop_trace in Hloop
    as (done & evs & _ & Hc & Hf & Hp & _ & _ & He & _ & _).
  cbn in Hc. rewrite <- !app_assoc in Hc. cbn in Hc.
  rewrite forallb_forall in He.
  destruct lr as [[]|e|i s].
  2,3: intros [= <- <-]; right; right; exists evs, done;
       repeat split; [done .. |];
       intros e' He'; left; by apply He.
  unfold bind at 1.
  destruct (output_results_spec w5) as (w6 & es & -> & _ & _ & _ & Hc6 & _).
  unfold call. intros Hrun.
  assert (w' = log EvDestroyWindow w6) as ->
    by (destruct (destroyWindow env) as [[]| |]; by injection Hrun as <- <-).
  right; right. exists (evs ++ [EvDestroyWindow]), done.
  split; [| split; [| split]].
  - cbn. rewrite Hc6, Hc. by rewrite <- app_assoc.
  - unfold flags in *. rewrite omap_app, Hf. cbn. by rewrite app_nil_r.
  - unfold pushed in *. rewrite omap_app, Hp. cbn. by rewrite app_nil_r.
  - intros e' [He' | [<- | []]]%in_app_or; [left; by apply He | by right].
Qed.

Lemma mexFunction_body env prhs w r w' :
  mexFunction env prhs w = (r, w') →
  ∃ br, body env prhs w = (br, w') ∧
        r = match br with
            | Ok _ => Returned (plhs0 w')
            | Throw what => Errored parsing_id ("Error: " +:+ what)
            | MexError id msg => Errored id msg
            end.
Proof.
  unfold mexFunction. destruct (body env prhs w) as [[[]|e|i s] w1];
    intros [= <- <-]; eauto.
Qed.

(** ** The video source *)

(** C10: if the factory answers the request for a source with a null
    pointer, the call fails with "No video source specified!"; no attempt
    to open a source is made, no array is created and the host gets no
    value. *)
Theorem null_video_source env prhs r w' path :
  mexFunction env prhs initial = (r, w') →
  In (EvVsfCreate path true) (calls w') →
  r = Errored parsing_id ("Error: " +:+ msg_no_source) ∧
  ¬ In EvOpen (calls w') ∧ heap w' = [] ∧ plhs0 w' = None.
Proof.
  intros (br & Hbody & ->)%mexFunction_body Hnull.
  apply body_stages in Hbody
    as [(pr & _ & ->) | (prm & _ & [Hc | [(null & Hc & Hh & Hp & Hr)
                                          | (tail & done & Hc & _ & _ & Ht)]])];
    cbn in *.
  - destruct Hnull.
  - rewrite Hc in Hnull. destruct Hnull as [[=] | []].
  - rewrite Hc in *. destruct Hnull as [[=] | [[= _ ->] | []]].
    rewrite (Hr eq_refl). repeat split; [| done | done].
    intros [[=] | [[=] | []]].
  - rewrite Hc in Hnull. destruct Hnull as [[=] | [[=] | [[=] | Hin]]].
    destruct (Ht _ Hin) as [[=] | [=]].
Qed.

Lemma null_video_source_witness :
  let prhs := [ex_string "model.dat"; ex_string "missing.avi"] in
  let w' := snd (mexFunction ex_env prhs initial) in
  mexFunction ex_env prhs initial =
    (Errored parsing_id ("Error: " +:+ msg_no_source), w') ∧
  In (EvVsfCreate "missing.avi" true) (calls w') ∧
  ¬ In EvOpen (calls w') ∧ heap w' = [] ∧ plhs0 w' = None.
Proof.
  intros prhs w'.
  assert (Hrun : mexFunction ex_env prhs initial =
            (Errored parsing_id ("Error: " +:+ msg_no_source), w'))
    by reflexivity.
  assert (Hnull : In (EvVsfCreate "missing.avi" true) (calls w'))
    by (vm_compute; auto).
  split; [exact Hrun |]. split; [exact Hnull |].
  exact (proj2 (null_video_source ex_env prhs _ w' "missing.avi" Hrun Hnull)).
Defined.

(** In live-device mode the parameters carry the device read from the
    second argument and an empty input path. *)
Lemma live_mode_parameters env a0 a1 rest w prm w' :
  isChar a1 = false →
  parse_arguments env (a0 :: a1 :: rest) w = (Ok prm, w') →
  toInt a1 = Ok (device prm) ∧ inputPath prm = "" ∧ preview prm = true.
Proof.
  intros Hc Hp. rewrite parse_arguments_two, Hc in Hp.
  destruct (isChar a0); [| done]. cbn [negb] in Hp.
  unfold bind at 1, access at 1 in Hp.
  destruct (toString a0) as [model| |]; [| done | done].
  destruct (isInt32 a1 || isDouble a1); [| done].
  unfold bind at 1, access at 1 in Hp.
  destruct (toInt a1) as [dev| |]; [| done | done].
  unfold bind, access, ret in Hp.
  repeat match type of Hp with
         | context [if ?b then _ else _] => destruct b
         | context [match ?r with Ok _ => _ | _ => _ end] =>
             destruct r; try discriminate
         end; injection Hp as <- <-; done.
Qed.

(** C2 (what the code does): in live-device mode the run does not depend
    on the device index, the width or the height.  Two calls with the same
    model and scale whose second arguments are not char arrays behave
    alike, whatever device and size they name: the source is created from
    the input path alone, which is empty in this mode. *)
Theorem live_mode_ignores_device env a0 a1 rest a1' rest' w prm prm' :
  isChar a1 = false → isChar a1' = false →
  parse_arguments env (a0 :: a1 :: rest) w = (Ok prm, w) →
  parse_arguments env (a0 :: a1' :: rest') w = (Ok prm', w) →
  frame_scale prm = frame_scale prm' →
  inputPath prm = "" ∧ inputPath prm' = "" ∧
  mexFunction env (a0 :: a1 :: rest) w = mexFunction env (a0 :: a1' :: rest') w.
Proof.
  intros Hc Hc' Hp Hp' Hscale.
  destruct (live_mode_parameters _ _ _ _ _ _ _ Hc Hp) as (_ & Hpath & Hprev).
  destruct (live_mode_parameters _ _ _ _ _ _ _ Hc' Hp') as (_ & Hpath' & Hprev').
  assert (Hmodel : landmarksModelPath prm = landmarksModelPath prm').
  { rewrite parse_arguments_two, Hc in Hp.
    rewrite parse_arguments_two, Hc' in Hp'.
    destruct (isChar a0); [| done]. cbn [negb] in Hp, Hp'.
    unfold bind at 1, access at 1 in Hp. unfold bind at 1, access at 1 in Hp'.
    destruct (toString a0) as [model| |]; [| done | done].
    destruct (isInt32 a1 || isDouble a1); [| done].
    destruct (isInt32 a1' || isDouble a1'); [| done].
    unfold bind, access, ret in Hp, Hp'.
    repeat match type of Hp with
           | context [if ?b then _ else _] => destruct b
           | context [match ?r with Ok _ => _ | _ => _ end] =>
               destruct r; try discriminate
           end; injection Hp as <-;
    repeat match type of Hp' with
           | context [if ?b then _ else _] => destruct b
           | context [match ?r with Ok _ => _ | _ => _ end] =>
               destruct r; try discriminate
           end; injection Hp' as <-; done. }
  split; [done |]. split; [done |].
  unfold mexFunction, body, bind. rewrite Hp, Hp'.
  by rewrite Hmodel, Hscale, Hpath, Hpath', Hprev, Hprev'.
Qed.

Lemma live_mode_ignores_device_witness :
  let a0 := ex_string "model.dat" in
  let dev0 := ex_scalar mxDOUBLE_CLASS 0 in
  let dev1 := ex_scalar mxINT32_CLASS 1 in
  let size := [ex_scalar mxDOUBLE_CLASS 640; ex_scalar mxDOUBLE_CLASS 480] in
  isChar dev0 = false ∧ isChar dev1 = false ∧
  mexFunction ex_env [a0; dev0] initial =
    mexFunction ex_env (a0 :: dev1 :: size) initial.
Proof.
  intros a0 dev0 dev1 size.
  split; [reflexivity |]. split; [reflexivity |].
  exact (proj2 (proj2
    (live_mode_ignores_device ex_env a0 dev0 [] dev1 size initial
       (mkParams "" "model.dat" 0 0 0 float_one true)
       (mkParams "" "model.dat" 1 640 480 float_one true)
       eq_refl eq_refl eq_refl eq_refl eq_refl))).
Defined.

(** ** The output *)

Section output_fields.
Local Open Scope nat_scope.

Lemma host_frames_faces frs i fr :
  frs !! i = Some fr → faces fr ≠ [] →
  mx_field (host_frames frs) i "faces" =
    Some (MxStruct 1 (length (faces fr)) face_fields (host_face <$> faces fr)).
Proof.
  intros Hfr Hne. unfold host_frames, mx_field.
  change (field_number frame_fields "faces") with (Some 0).
  cbn [mbind option_bind]. rewrite list_lookup_fmap, Hfr. cbn.
  by destruct (faces fr).
Qed.

Lemma host_faces_landmarks m fs j f :
  fs !! j = Some f →
  mx_field (MxStruct 1 m face_fields (host_face <$> fs)) j "landmarks" =
    Some (MxNumeric (length (landmarks_matrix f)) 2 (landmarks_matrix f)).
Proof.
  intros Hf. unfold mx_field.
  change (field_number face_fields "landmarks") with (Some 0).
  cbn [mbind option_bind]. by rewrite list_lookup_fmap, Hf.
Qed.

Lemma host_faces_bbox m fs j f :
  fs !! j = Some f →
  mx_field (MxStruct 1 m face_fields (host_face <$> fs)) j "bbox" =
    Some (MxNumeric 1 4 [bbox_row f]).
Proof.
  intros Hf. unfold mx_field.
  change (field_number face_fields "bbox") with (Some 1).
  cbn [mbind option_bind]. by rewrite list_lookup_fmap, Hf.
Qed.
End output_fields.

Lemma int_add_no_overflow x : INT_MIN ≤ x → x < INT_MAX → int_add x 1 = x + 1.
Proof.
  unfold INT_MIN, INT_MAX, int_add, int_wrap. intros Hlo Hhi.
  rewrite Z.mod_small; lia.
Qed.

(** A returned value is the array of all the frames of the session. *)
Lemma mexFunction_output env prhs o w' :
  mexFunction env prhs initial = (Returned o, w') →
  ∃ out, o = Some out ∧
    ∀ n, read_back (3 + n) (heap w') out = Some (host_frames (results (calls w'))).
Proof.
  intros [Hbody ->]%mexFunction_returned.
  apply body_returns in Hbody
    as (prm & vs & done & evs & out & _ & _ & _ & _ & _ & _ & _ & _ & Hout & Hread).
  eauto.
Qed.

(** C4: a run that returns yields a 1-by-K struct array with the fields
    [faces], [width] and [height], where K is the number of results the
    session accumulated; element [i] carries the width and height of
    result [i], and a result without faces leaves the [faces] field
    unset (empty for the host). *)
Theorem output_struct_array env prhs o w' :
  mexFunction env prhs initial = (Returned o, w') →
  let frs := results (calls w') in
  ∃ out entries,
    o = Some out ∧
    (∀ n, read_back (3 + n) (heap w') out =
            Some (MxStruct 1 (length frs) ["faces"; "width"; "height"] entries)) ∧
    length entries = length frs ∧
    ∀ i fr, frs !! i = Some fr →
      ∃ fv, entries !! i =
              Some [fv; Some (MxNumeric 1 1 [[width fr]]);
                    Some (MxNumeric 1 1 [[height fr]])] ∧
            (faces fr = [] → fv = None).
Proof.
  intros (out & -> & Hread)%mexFunction_output frs.
  exists out, (host_frame <$> frs).
  split; [done |]. split; [exact Hread |]. split; [apply length_fmap |].
  intros i fr Hfr. rewrite list_lookup_fmap, Hfr. cbn.
  eexists. split; [reflexivity |]. by intros ->.
Qed.

Lemma output_struct_array_witness :
  let prhs := [ex_string "model.dat"; ex_string "video.avi"] in
  ∃ o w',
    mexFunction ex_env prhs initial = (Returned o, w') ∧
    results (calls w') !! 1%nat = Some (mkFrame [] 640 480) ∧
    ∃ out entries,
      o = Some out ∧
      (∀ n, read_back (3 + n) (heap w') out =
              Some (MxStruct 1 2 ["faces"; "width"; "height"] entries)) ∧
      length entries = 2%nat ∧
      ∀ i fr, results (calls w') !! i = Some fr →
        ∃ fv, entries !! i =
                Some [fv; Some (MxNumeric 1 1 [[width fr]]);
                      Some (MxNumeric 1 1 [[height fr]])] ∧
              (faces fr = [] → fv = None).
Proof.
  intros prhs. eexists _, _.
  split; [vm_compute; reflexivity |]. split; [reflexivity |].
  eapply (output_struct_array ex_env prhs). vm_compute; reflexivity.
Defined.


(** The fields of face [j] of frame [i], as the host reads them. *)
Lemma output_face_fields env prhs o w' i fr j f :
  mexFunction env prhs initial = (Returned o, w') →
  results (calls w') !! i = Some fr → faces fr !! j = Some f →
  ∃ out v fv,
    o = Some out ∧ (∀ n, read_back (3 + n) (heap w') out = Some v) ∧
    mx_field v i "faces" = Some fv ∧
    mx_field fv j "landmarks" =
      Some (MxNumeric (length (landmarks_matrix f)) 2 (landmarks_matrix f)) ∧
    mx_field fv j "bbox" = Some (MxNumeric 1 4 [bbox_row f]).
Proof.
  intros (out & -> & Hread)%mexFunction_output Hfr Hf.
  eexists out, _, _. split; [done |]. split; [exact Hread |].
  split; [| split].
  - apply host_frames_faces; [done |]. intros Hnil. by rewrite Hnil in Hf.
  - by apply host_faces_landmarks.
  - by apply host_faces_bbox.
Qed.

(** C6: in the output of a run that returns, row [k] of the [landmarks]
    matrix of face [j] of frame [i] is landmark [k] of that face as the
    session held it, with 1 added to x and to y (the coordinates being
    [int]s below [INT_MAX], so that the addition does not overflow). *)
Theorem landmarks_shifted env prhs o w' i fr j f k pt :
  mexFunction env prhs initial = (Returned o, w') →
  results (calls w') !! i = Some fr →
  faces fr !! j = Some f →
  landmarks f !! k = Some pt →
  is_int (pt_x pt) → is_int (pt_y pt) →
  pt_x pt < INT_MAX → pt_y pt < INT_MAX →
  ∃ out v,
    o = Some out ∧ (∀ n, read_back (3 + n) (heap w') out = Some v) ∧
    (fv ← mx_field v i "faces"; m ← mx_field fv j "landmarks"; mx_row m k) =
      Some [pt_x pt + 1; pt_y pt + 1].
Proof.
  intros Hrun Hfr Hf Hpt [Hx _] [Hy _] Hxmax Hymax.
  destruct (output_face_fields _ _ _ _ _ _ _ _ Hrun Hfr Hf)
    as (out & v & fv & -> & Hread & Hfaces & Hlm & _).
  exists out, v. split; [done |]. split; [exact Hread |].
  rewrite Hfaces. cbn [mbind option_bind]. rewrite Hlm. cbn [mbind option_bind mx_row].
  unfold landmarks_matrix, mat_of_points.
  rewrite !list_lookup_fmap, Hpt. cbn.
  by rewrite !int_add_no_overflow.
Qed.

Lemma landmarks_shifted_witness :
  let prhs := [ex_string "model.dat"; ex_string "video.avi"] in
  ∃ o w',
    mexFunction ex_env prhs initial = (Returned o, w') ∧
    results (calls w') !! 0%nat = Some (mkFrame [ex_face; ex_face] 640 480) ∧
    ∃ out v,
      o = Some out ∧ (∀ n, read_back (3 + n) (heap w') out = Some v) ∧
      (fv ← mx_field v 0 "faces"; m ← mx_field fv 1 "landmarks"; mx_row m 1) =
        Some [8; 10].
Proof.
  intros prhs. eexists _, _.
  split; [vm_compute; reflexivity |]. split; [reflexivity |].
  eapply (landmarks_shifted ex_env prhs _ _ 0 (mkFrame [ex_face; ex_face] 640 480)
            1 ex_face 1 (mkPoint 7 9));
    try reflexivity; try (vm_compute; reflexivity); vm_compute; split; discriminate.
Defined.

(** C1 (what the code does): in the output of a run that returns, the
    [bbox] field of face [j] of frame [i] is the row [x, y, width, height]
    of the rectangle as the session holds it: the row shifted by one, which
    the code computes, is not the one it writes. *)
Theorem bbox_written_as_stored env prhs o w' i fr j f :
  mexFunction env prhs initial = (Returned o, w') →
  results (calls w') !! i = Some fr →
  faces fr !! j = Some f →
  ∃ out v,
    o = Some out ∧ (∀ n, read_back (3 + n) (heap w') out = Some v) ∧
    (fv ← mx_field v i "faces"; b ← mx_field fv j "bbox"; mx_row b 0) =
      Some [rect_x (bbox f); rect_y (bbox f);
            rect_width (bbox f); rect_height (bbox f)].
Proof.
  intros Hrun Hfr Hf.
  destruct (output_face_fields _ _ _ _ _ _ _ _ Hrun Hfr Hf)
    as (out & v & fv & -> & Hread & Hfaces & _ & Hbox).
  exists out, v. split; [done |]. split; [exact Hread |].
  rewrite Hfaces. cbn [mbind option_bind]. rewrite Hbox. done.
Qed.

Lemma bbox_written_as_stored_witness :
  let prhs := [ex_string "model.dat"; ex_string "video.avi"] in
  ∃ o w',
    mexFunction ex_env prhs initial = (Returned o, w') ∧
    results (calls w') !! 0%nat = Some (mkFrame [ex_face; ex_face] 640 480) ∧
    bbox ex_face = mkRect 10 20 30 40 ∧
    ∃ out v,
      o = Some out ∧ (∀ n, read_back (3 + n) (heap w') out = Some v) ∧
      (fv ← mx_field v 0 "faces"; b ← mx_field fv 0 "bbox"; mx_row b 0) =
        Some [10; 20; 30; 40].
Proof.
  intros prhs. eexists _, _.
  split; [vm_compute; reflexivity |]. split; [reflexivity |].
  split; [reflexivity |].
  eapply (bbox_written_as_stored ex_env prhs _ _ 0
            (mkFrame [ex_face; ex_face] 640 480) 0 ex_face);
    try reflexivity; vm_compute; reflexivity.
Defined.

(** ** The clean-up and the session, on two runs *)

(** An exception met in the final clean-up, after [plhs[0]] was assigned
    and filled, is reported like any other: the host gets the error, not
    the array. *)
Example cleanup_exception_discards_output :
  let prhs := [ex_string "model.dat"; ex_string "video.avi";
               ex_scalar mxDOUBLE_CLASS 1; ex_scalar mxLOGICAL_CLASS 0] in
  let '(r, w') := mexFunction ex_headless_env prhs initial in
  r = Errored parsing_id "Error: The function is not implemented." ∧
  plhs0 w' = Some 0%nat ∧
  read_back 3 (heap w') 0%nat = Some (host_frames (results (calls w'))).
Proof. vm_compute. by repeat split. Qed.

(** The landmarks of the session itself are incremented by the output
    conversion: the matrix that is incremented shares their storage. *)
Example session_landmarks_incremented :
  let prhs := [ex_string "model.dat"; ex_string "video.avi"] in
  let w' := snd (mexFunction ex_env prhs initial) in
  landmarks ex_face = [mkPoint 0 5; mkPoint 7 9] ∧
  (faces <$> sequence w' !! 0%nat) =
    Some [mkFace [mkPoint 1 6; mkPoint 8 10] (mkRect 10 20 30 40);
          mkFace [mkPoint 1 6; mkPoint 8 10] (mkRect 10 20 30 40)].
Proof. vm_compute. by split. Qed.

(** * Further properties *)

(** ** The runs of the main loop, case by case *)

Ltac run_exit :=
  eexists; split;
  [ econstructor; eauto using @failed
  | cbn; rewrite <- ?app_assoc; repeat split; reflexivity ].

(** Every run of [main_loop] follows one of the paths of [loop_run]; the
    calls it makes are appended to the trace, and neither the heap nor
    [plhs[0]] is touched. *)
Lemma main_loop_run env tr prev reads :
  ∀ fc w r w',
    main_loop env tr prev reads fc w = (r, w') →
    ∃ evs,
      loop_run env tr prev reads fc (sequence w) (polls w) evs r
               (sequence w') (polls w') ∧
      calls w' = calls w ++ evs ∧ heap w' = heap w ∧ plhs0 w' = plhs0 w.
Proof.
  induction reads as [|r0 rest IH]; intros fc w r w' Hrun.
  - injection Hrun as <- <-. run_exit.
  - cbn [main_loop] in Hrun. unfold bind at 1, call at 1 in Hrun.
    destruct r0 as [p|e|i s].
    2,3: injection Hrun as <- <-; run_exit.
    unfold bind at 1, call at 1 in Hrun.
    destruct p as [upd img]. cbn [updated image] in Hrun.
    destruct upd; cbn [negb] in Hrun.
    + unfold bind at 1, call at 1 in Hrun.
      unfold bind at 1, addFrame at 1 in Hrun.
      cbn [sequence log] in Hrun.
      destruct (tr (sequence w) img) as [f|e|i s] eqn:Htr.
      2,3: injection Hrun as <- <-; eexists; split;
           [ eapply run_track_fails; cbn; rewrite Htr; constructor
           | cbn; rewrite <- ?app_assoc; repeat split; reflexivity ].
      destruct prev.
      * do 4 unfold bind at 1, call at 1 in Hrun.
        destruct (imshow env) as [[]|e|i s] eqn:Hshow.
        2,3: injection Hrun as <- <-; eexists; split;
             [ eapply run_show_fails; [done | cbn; exact Htr | rewrite Hshow; constructor]
             | cbn; rewrite <- ?app_assoc; repeat split; reflexivity ].
        unfold bind at 1, poll_key at 1 in Hrun. cbv zeta in Hrun.
        cbn [polls log with_sequence] in Hrun.
        destruct (waitKey env (polls w) >=? 0) eqn:Hkey.
        -- injection Hrun as <- <-. eexists; split;
             [ by eapply run_key
             | cbn; rewrite <- ?app_assoc; repeat split; reflexivity ].
        -- apply IH in Hrun as (evs & Hrun & Hc & Hh & Ho).
           eexists; split;
             [ eapply run_next; [done | exact Htr | exact Hshow | exact Hkey | exact Hrun]
             | cbn in *; rewrite Hc, <- ?app_assoc; repeat split; done ].
      * apply IH in Hrun as (evs & Hrun & Hc & Hh & Ho).
        eexists; split;
          [ eapply run_quiet; [done | exact Htr | exact Hrun]
          | cbn in *; rewrite Hc, <- ?app_assoc; repeat split; done ].
    + apply IH in Hrun as (evs & Hrun & Hc & Hh & Ho).
      eexists; split;
        [ eapply run_skip; exact Hrun
        | cbn in *; rewrite Hc, <- ?app_assoc; repeat split; done ].
Qed.

(** ** The runs of the body *)

(** A run that stopped in the set-up: one of its steps did not succeed. *)
Ltac stopped :=
  repeat split; try done;
  intros (prm' & sfl' & vs' & H1 & H2 & H3 & H4); simplify_eq; congruence.

(** A run of the body either stops before the loop, having made only calls
    of the set-up and created nothing, or it opens the source and runs the
    loop; the output conversion and the clean-up follow a loop that
    returns, and nothing follows a loop that fails. *)
Lemma body_run env prhs r w' :
  body env prhs initial = (r, w') →
  (forallb is_setup_event (calls w') = true ∧
   heap w' = [] ∧ plhs0 w' = None ∧ r ≠ Ok tt ∧
   ¬ ∃ prm sfl vs,
       parse_arguments env prhs initial = (Ok prm, initial) ∧
       sfl_create env (landmarksModelPath prm) (frame_scale prm) = Ok sfl ∧
       vsf_create env (inputPath prm) = Ok (Some vs) ∧
       vs_open vs = Ok true) ∨
  ∃ prm sfl vs evs lr seq' n',
    parse_arguments env prhs initial = (Ok prm, initial) ∧
    sfl_create env (landmarksModelPath prm) (frame_scale prm) = Ok sfl ∧
    vsf_create env (inputPath prm) = Ok (Some vs) ∧
    vs_open vs = Ok true ∧
    loop_run env sfl (preview prm) (vs_reads vs) 0 [] 0 evs lr seq' n' ∧
    let opened := [EvSflCreate (landmarksModelPath prm) (frame_scale prm);
                   EvVsfCreate (inputPath prm) false; EvOpen] in
    ((failed lr r ∧ calls w' = opened ++ evs ∧ heap w' = [] ∧ plhs0 w' = None) ∨
     (lr = Ok tt ∧ calls w' = opened ++ evs ++ [EvDestroyWindow] ∧
      (r = Ok tt ∧ destroyWindow env = Ok tt ∨ failed (destroyWindow env) r) ∧
      ∃ w5, sequence w5 = seq' ∧ heap w5 = [] ∧
            w' = log EvDestroyWindow (output_results w5))).
Proof.
  unfold body. unfold bind at 1.
  destruct (parse_arguments env prhs initial) as [pr w1] eqn:Hparse.
  pose proof (parse_arguments_pure _ _ _ _ _ Hparse) as ->.
  destruct pr as [prm|e|i s]; [| intros [= <- <-]; left; stopped ..].
  unfold bind at 1, create_session.
  destruct (sfl_create env _ _) as [sfl|e|i s] eqn:Hsfl;
    [| intros [= <- <-]; left; stopped ..].
  unfold bind at 1, create_source, call at 1.
  destruct (vsf_create env (inputPath prm)) as [[vs|]|e|i s] eqn:Hvs;
    [| intros [= <- <-]; left; stopped ..].
  unfold bind at 1, call at 1.
  destruct (vs_open vs) as [[|]|e|i s] eqn:Hopen;
    [| intros [= <- <-]; left; stopped ..].
  cbn [negb]. unfold bind at 1.
  match goal with
  | |- context [main_loop ?a ?b ?c ?d ?e ?w] =>
      destruct (main_loop a b c d e w) as [lr w5] eqn:Hloop
  end.
  apply main_loop_run in Hloop as (evs & Hloop & Hc & Hh & Ho).
  cbn in Hloop, Hc, Hh, Ho.
  intros Hrun. right. exists prm, sfl, vs, evs, lr, (sequence w5), (polls w5).
  do 5 (split; [done |]). cbv zeta.
  destruct lr as [[]|e|i s].
  2,3: injection Hrun as <- <-; left; repeat split; (done || constructor).
  right. split; [done |]. revert Hrun. unfold bind at 1, call.
  intros Hrun.
  assert (w' = log EvDestroyWindow (output_results w5)) as ->
    by (destruct (destroyWindow env) as [[]| |]; by injection Hrun as <- <-).
  destruct (output_results_spec w5) as (w6 & es & Hw6 & _ & _ & _ & Hc6 & _).
  split; [| split].
  - rewrite Hw6. cbn. rewrite Hc6, Hc. by rewrite <- ?app_assoc.
  - destruct (destroyWindow env) as [[]| |]; injection Hrun as <-;
      [left; done | right; constructor ..].
  - by exists w5.
Qed.

(** ** What the loop does on each path *)

Arguments counter_text : simpl never.
Arguments next_count : simpl never.
Arguments int_wrap : simpl never.
Arguments int_sub : simpl never.

(** Case analysis on the position of an event in a trace whose first
    events are known. *)
Ltac at_index_go j H :=
  lazymatch type of H with
  | [] !! _ = _ => rewrite lookup_nil in H; discriminate H
  | (?x :: ?l) !! _ = ?y =>
      destruct j as [|j];
      [ change (Some x = y) in H; simplify_eq
      | change (l !! j = y) in H; at_index_go j H ]
  | _ => idtac
  end.

Ltac at_index j H :=
  unfold pushed_events, shown_events in H; cbn [app] in H; at_index_go j H.

(** A key poll answered with a key is the last call of the loop, which then
    returns. *)
Lemma loop_run_key_last env tr prev reads fc seq n evs r seq' n' :
  loop_run env tr prev reads fc seq n evs r seq' n' →
  ∀ j k, evs !! j = Some (EvWaitKey k) → (k >=? 0) = true →
         length evs = S j ∧ r = Ok tt.
Proof.
  induction 1 as [ | | ? ? ? ? ? ? ? ? ? _ IH | | ? ? ? ? ? ? ? ? ? ? ? ? _ IH | |
                   | ? ? ? ? ? ? ? ? ? ? ? ? ? Hkey _ IH ];
    intros j k Hj Hk.
  - by at_index j Hj.
  - by at_index j Hj.
  - at_index j Hj. destruct (IH _ _ Hj Hk) as [Hlen ->].
    cbn. by rewrite Hlen.
  - by at_index j Hj.
  - at_index j Hj. destruct (IH _ _ Hj Hk) as [Hlen ->].
    unfold pushed_events. cbn. by rewrite Hlen.
  - by at_index j Hj.
  - at_index j Hj; done.
  - at_index j Hj; [congruence |].
    destruct (IH _ _ Hj Hk) as [Hlen ->].
    unfold pushed_events, shown_events. cbn. by rewrite Hlen.
Qed.

(** Without preview the loop makes no call to the display. *)
Lemma loop_run_quiet env tr reads fc seq n evs r seq' n' :
  loop_run env tr false reads fc seq n evs r seq' n' →
  forallb (λ e, negb (is_gui_event e)) evs = true.
Proof.
  remember false as prev eqn:Hprev.
  induction 1; subst; try done; cbn; auto.
Qed.

(** The session grows by the results of the pushes, whatever the outcome;
    in a loop that returns, they are what the tracker answers when fed the
    pushed images in order. *)
Lemma loop_run_track env tr prev reads fc seq n evs r seq' n' :
  loop_run env tr prev reads fc seq n evs r seq' n' →
  seq' = seq ++ results evs ∧
  (r = Ok tt → track tr seq (pushed evs) = Some (results evs)).
Proof.
  induction 1 as [ | ? ? ? ? ? ? Hf | ? ? ? ? ? ? ? ? ? _ [IH1 IH2]
                 | ? ? ? ? ? ? Hf
                 | ? ? ? ? ? ? ? ? ? ? ? Htr _ [IH1 IH2]
                 | ? ? ? ? ? ? ? ? Htr Hf | ? ? ? ? ? ? ? Htr
                 | ? ? ? ? ? ? ? ? ? ? ? Htr ? ? _ [IH1 IH2] ];
    unfold results, pushed, pushed_events, shown_events in *; cbn.
  - by rewrite app_nil_r.
  - rewrite app_nil_r. split; [done |]. intros ->. inversion Hf.
  - done.
  - rewrite app_nil_r. split; [done |]. intros ->. inversion Hf.
  - rewrite Htr, IH1, <- app_assoc. split; [done |].
    intros Hr. by rewrite (IH2 Hr).
  - split; [done |]. intros ->. inversion Hf.
  - by rewrite Htr.
  - rewrite Htr, IH1, <- app_assoc. split; [done |].
    intros Hr. by rewrite (IH2 Hr).
Qed.

Lemma int_wrap_add_l a b : int_wrap (int_wrap a + b) = int_wrap (a + b).
Proof.
  unfold int_wrap. f_equal.
  replace ((a + 2 ^ 31) mod 2 ^ 32 - 2 ^ 31 + b + 2 ^ 31)
    with ((a + 2 ^ 31) mod 2 ^ 32 + b) by lia.
  rewrite Z.add_mod_idemp_l by lia. f_equal. lia.
Qed.

(** With preview, one counter text is drawn per result of the session: the
    counter started at [acc] plus the faces found so far, as an [int]. *)
Lemma loop_run_counter env tr reads fc seq n evs r seq' n' :
  loop_run env tr true reads fc seq n evs r seq' n' →
  ∀ acc, int_wrap acc = fc →
    counter_texts evs =
      (λ t, counter_text (int_wrap t)) <$>
        running_totals acc (face_count <$> results evs).
Proof.
  remember true as prev eqn:Hprev.
  induction 1 as [ | | ? ? ? ? ? ? ? ? ? _ IH | | | |
                   | ? ? ? ? ? ? ? ? ? ? ? ? ? ? _ IH ];
    intros acc Hacc; subst; try done;
    unfold counter_texts, results, pushed_events, shown_events in *; cbn.
  - by apply IH.
  - unfold next_count, face_count. by rewrite int_wrap_add_l.
  - unfold next_count, face_count. by rewrite int_wrap_add_l.
  - unfold next_count, face_count at 1. rewrite int_wrap_add_l. f_equal.
    apply IH. unfold next_count, face_count. by rewrite int_wrap_add_l.
Qed.

(** The loop only makes calls of the loop. *)
Lemma loop_run_events env tr prev reads fc seq n evs r seq' n' :
  loop_run env tr prev reads fc seq n evs r seq' n' →
  forallb is_loop_event evs = true.
Proof. induction 1; cbn; auto. Qed.

(** The loop reads the source to its end when every read delivers a pull
    and, for each updated pull, the tracker succeeds and, with preview, the
    frame is shown and no key is pressed. *)
Lemma loop_run_to_end env tr prev reads fc seq n evs r seq' n' :
  loop_run env tr prev reads fc seq n evs r seq' n' →
  ∀ pulls,
    reads = Ok <$> pulls →
    (∀ p, In p pulls → updated p = true →
          (∀ s, ∃ f, tr s (image p) = Ok f) ∧
          (prev = true →
           imshow env = Ok tt ∧ ∀ m, (waitKey env m >=? 0) = false)) →
    r = Ok tt ∧
    flags evs = updated <$> pulls ∧
    pushed evs = image <$> updated_pulls pulls ∧
    length (results evs) = length (updated_pulls pulls) ∧
    reads_made evs = S (length pulls).
Proof.
  induction 1 as [ | ? ? ? ? ? ? Hf | ? ? ? ? ? ? ? ? ? _ IH
                 | ? ? ? ? ? ? Hf
                 | ? ? ? ? ? ? ? ? ? ? ? Htr _ IH
                 | ? ? ? ? ? ? ? ? Htr Hf | ? ? ? ? ? ? ? Htr ? Hkey
                 | ? ? ? ? ? ? ? ? ? ? ? Htr ? ? _ IH ];
    intros pulls Hreads Hok; destruct pulls as [|p ps]; simplify_eq/=.
  - done.
  - inversion Hf.
  - destruct (IH ps eq_refl) as (-> & Hfl & Hpu & Hre & Hrd); [by auto |].
    unfold flags, pushed, results, reads_made in *. cbn.
    by rewrite Hfl, Hpu, Hre, Hrd.
  - destruct (Hok _ (or_introl eq_refl) eq_refl) as [Htot _].
    destruct (Htot seq) as [f Htr]. cbn in Htr. rewrite Htr in Hf. inversion Hf.
  - destruct (IH ps eq_refl) as (-> & Hfl & Hpu & Hre & Hrd); [by auto |].
    unfold flags, pushed, results, reads_made in *. cbn.
    by rewrite Hfl, Hpu, Hre, Hrd.
  - destruct (Hok _ (or_introl eq_refl) eq_refl) as [_ Hgui].
    destruct (Hgui eq_refl) as [Hshow _]. rewrite Hshow in Hf. inversion Hf.
  - destruct (Hok _ (or_introl eq_refl) eq_refl) as [_ Hgui].
    destruct (Hgui eq_refl) as [_ Hnokey]. congruence.
  - destruct (IH ps eq_refl) as (-> & Hfl & Hpu & Hre & Hrd); [by auto |].
    unfold flags, pushed, results, reads_made, pushed_events, shown_events in *.
    cbn. by rewrite Hfl, Hpu, Hre, Hrd.
Qed.

Lemma trace_of_returned_run (opened evs : list Event) :
  forallb is_setup_event opened = true →
  flags (opened ++ evs ++ [EvDestroyWindow]) = flags evs ∧
  pushed (opened ++ evs ++ [EvDestroyWindow]) = pushed evs ∧
  results (opened ++ evs ++ [EvDestroyWindow]) = results evs ∧
  counter_texts (opened ++ evs ++ [EvDestroyWindow]) = counter_texts evs.
Proof.
  intros Hsetup.
  assert (∀ {A} (f : Event → option A),
            (∀ e, is_setup_event e = true → f e = None) →
            f EvDestroyWindow = None →
            omap f (opened ++ evs ++ [EvDestroyWindow]) = omap f evs) as Homap.
  { intros A f Hf Hd. rewrite !omap_app. cbn. rewrite Hd, app_nil_r.
    replace (omap f opened) with (@nil A); [done |].
    clear -Hsetup Hf. induction opened as [|e l IH]; [done |].
    cbn in Hsetup. apply andb_prop in Hsetup as [He Hl].
    cbn. rewrite (Hf e He). by apply IH. }
  unfold flags, pushed, results, counter_texts.
  repeat split; apply Homap; try done; by intros [].
Qed.

(** A run whose set-up succeeds and whose loop meets no failure and no key
    press reads the source to its end and returns. *)
Lemma body_reaches_end env prhs prm sfl vs pulls :
  parse_arguments env prhs initial = (Ok prm, initial) →
  sfl_create env (landmarksModelPath prm) (frame_scale prm) = Ok sfl →
  vsf_create env (inputPath prm) = Ok (Some vs) →
  vs_open vs = Ok true →
  vs_reads vs = Ok <$> pulls →
  (∀ p, In p pulls → updated p = true →
        (∀ s, ∃ f, sfl s (image p) = Ok f) ∧
        (preview prm = true →
         imshow env = Ok tt ∧ ∀ m, (waitKey env m >=? 0) = false)) →
  destroyWindow env = Ok tt →
  ∃ out w',
    mexFunction env prhs initial = (Returned (Some out), w') ∧
    flags (calls w') = updated <$> pulls ∧
    pushed (calls w') = image <$> updated_pulls pulls ∧
    reads_made (calls w') = S (length pulls) ∧
    length (results (calls w')) = length (updated_pulls pulls) ∧
    ∀ k, read_back (3 + k) (heap w') out =
           Some (host_frames (results (calls w'))).
Proof.
  intros Hparse Hsfl Hvs Hopen Hreads Hok Hdestroy.
  destruct (mexFunction env prhs initial) as [r w'] eqn:Hrun.
  destruct (mexFunction_body _ _ _ _ _ Hrun) as (br & Hbody & Hr).
  apply body_run in Hbody
    as [(_ & _ & _ & _ & Hno)
       | (prm' & sfl' & vs' & evs & lr & seq' & n' & H1 & H2 & H3 & H4 & Hloop & Hend)].
  { destruct Hno. by exists prm, sfl, vs. }
  assert (prm' = prm) as -> by congruence.
  assert (sfl' = sfl) as -> by congruence.
  assert (vs' = vs) as -> by congruence.
  destruct (loop_run_to_end _ _ _ _ _ _ _ _ _ _ _ Hloop pulls Hreads Hok)
    as (-> & Hfl & Hpu & Hre & Hrd).
  cbv zeta in Hend.
  destruct Hend as [(Hf & _) | (_ & Hc & Hout & _)]; [inversion Hf |].
  destruct Hout as [[-> _] | Hf]; [| rewrite Hdestroy in Hf; inversion Hf].
  subst r.
  destruct (mexFunction_output _ _ _ _ Hrun) as (out & Hout & Hread).
  destruct (trace_of_returned_run
              [EvSflCreate (landmarksModelPath prm) (frame_scale prm);
               EvVsfCreate (inputPath prm) false; EvOpen] evs eq_refl)
    as (Ef & Ep & Er & _).
  exists out, w'. rewrite Hout, Hc, Ef, Ep, Er.
  repeat split; try done.
  - unfold reads_made in *. rewrite !List.filter_app, !length_app. cbn. lia.
  - intros k. rewrite <- Er, <- Hc. apply Hread.
Qed.

(** ** Runs that read the source to its end *)

(** X1: when the arguments are accepted, the session and the source are
    created, the source opens and delivers the pulls [pulls], and for each
    updated pull the tracker succeeds and, with preview, the frame is shown
    and no key is pressed, and the final [cv::destroyWindow] succeeds, the
    call returns: it has read the source to its end ([read()] is called once more than there are pulls), pushed the
    images of the updated pulls in order, and its array has one element per
    updated pull. *)
Theorem run_reads_source_to_end env prhs prm sfl vs pulls :
  parse_arguments env prhs initial = (Ok prm, initial) →
  sfl_create env (landmarksModelPath prm) (frame_scale prm) = Ok sfl →
  vsf_create env (inputPath prm) = Ok (Some vs) →
  vs_open vs = Ok true →
  vs_reads vs = Ok <$> pulls →
  (∀ p, In p pulls → updated p = true →
        (∀ s, ∃ f, sfl s (image p) = Ok f) ∧
        (preview prm = true →
         imshow env = Ok tt ∧ ∀ m, (waitKey env m >=? 0) = false)) →
  destroyWindow env = Ok tt →
  ∃ out entries w',
    mexFunction env prhs initial = (Returned (Some out), w') ∧
    reads_made (calls w') = S (length pulls) ∧
    pushed (calls w') = image <$> updated_pulls pulls ∧
    (∀ k, read_back (3 + k) (heap w') out =
            Some (MxStruct 1 (length (updated_pulls pulls))
                    ["faces"; "width"; "height"] entries)) ∧
    length entries = length (updated_pulls pulls).
Proof.
  intros Hparse Hsfl Hvs Hopen Hreads Hok Hdestroy.
  destruct (body_reaches_end _ _ _ _ _ _ Hparse Hsfl Hvs Hopen Hreads Hok Hdestroy)
    as (out & w' & Hrun & _ & Hpu & Hrd & Hlen & Hread).
  exists out, (host_frame <$> results (calls w')), w'.
  split; [done |]. split; [done |]. split; [done |]. split.
  - intros k. rewrite Hread. unfold host_frames. by rewrite Hlen.
  - by rewrite length_fmap.
Qed.

Lemma run_reads_source_to_end_witness :
  let prhs := [ex_string "model.dat"; ex_string "video.avi"] in
  ∃ out entries w',
    mexFunction ex_env prhs initial = (Returned (Some out), w') ∧
    reads_made (calls w') = 4%nat ∧
    pushed (calls w') = [ex_image 1; ex_image 0] ∧
    (∀ k, read_back (3 + k) (heap w') out =
            Some (MxStruct 1 2 ["faces"; "width"; "height"] entries)) ∧
    length entries = 2%nat.
Proof.
  intros prhs.
  apply (run_reads_source_to_end ex_env prhs
           (mkParams "video.avi" "model.dat" (-1) 0 0 float_one true)
           ex_tracker ex_stream
           [mkPull true (ex_image 1); mkPull false (ex_image 1);
            mkPull true (ex_image 0)]);
    try reflexivity.
  intros p [<- | [<- | [<- | []]]] Hupd; try discriminate Hupd;
    (split; [intros s; eexists; reflexivity | intros _; split; [reflexivity | done]]).
Defined.

Lemma updated_pulls_none pulls :
  (∀ p, In p pulls → updated p = false) → updated_pulls pulls = [].
Proof.
  induction pulls as [|p ps IH]; [done |]. intros Hnone.
  unfold updated_pulls in *. cbn. rewrite (Hnone p) by by left.
  apply IH. intros q Hq. apply Hnone. by right.
Qed.

(** X2: a source that opens and delivers no updated pull (in particular
    one that delivers nothing) is not an error: if the final
    [cv::destroyWindow] succeeds, the call returns a 1-by-0 struct array;
    nothing is pushed to the session, whatever the tracker, [imshow] and
    the key polls would do. *)
Theorem no_updated_pull_gives_empty_array env prhs prm sfl vs pulls :
  parse_arguments env prhs initial = (Ok prm, initial) →
  sfl_create env (landmarksModelPath prm) (frame_scale prm) = Ok sfl →
  vsf_create env (inputPath prm) = Ok (Some vs) →
  vs_open vs = Ok true →
  vs_reads vs = Ok <$> pulls →
  (∀ p, In p pulls → updated p = false) →
  destroyWindow env = Ok tt →
  ∃ out w',
    mexFunction env prhs initial = (Returned (Some out), w') ∧
    pushed (calls w') = [] ∧
    ∀ k, read_back (3 + k) (heap w') out =
           Some (MxStruct 1 0 ["faces"; "width"; "height"] []).
Proof.
  intros Hparse Hsfl Hvs Hopen Hreads Hnone Hdestroy.
  destruct (body_reaches_end _ _ _ _ _ _ Hparse Hsfl Hvs Hopen Hreads)
    as (out & w' & Hrun & _ & Hpu & _ & Hlen & Hread); [| done |].
  { intros p Hp Hupd. rewrite (Hnone p Hp) in Hupd. discriminate. }
  rewrite (updated_pulls_none _ Hnone) in Hpu, Hlen.
  exists out, w'. split; [done |]. split; [done |].
  intros k. rewrite Hread.
  by destruct (results (calls w')).
Qed.

Lemma no_updated_pull_gives_empty_array_witness :
  let prhs := [ex_string "model.dat"; ex_string "video.avi"] in
  ∃ out w',
    mexFunction ex_idle_env prhs initial = (Returned (Some out), w') ∧
    pushed (calls w') = [] ∧
    ∀ k, read_back (3 + k) (heap w') out =
           Some (MxStruct 1 0 ["faces"; "width"; "height"] []).
Proof.
  intros prhs.
  apply (no_updated_pull_gives_empty_array ex_idle_env prhs
           (mkParams "video.avi" "model.dat" (-1) 0 0 float_one true)
           (λ _ _, Throw "no model")
           (mkStream (Ok true)
              [Ok (mkPull false (ex_image 1)); Ok (mkPull false (ex_image 1))])
           [mkPull false (ex_image 1); mkPull false (ex_image 1)]);
    try reflexivity.
  by intros p [<- | [<- | []]].
Defined.

(** ** Key presses, preview and clean-up *)

Lemma forallb_lookup {A} (P : A → bool) (l : list A) j x :
  forallb P l = true → l !! j = Some x → P x = true.
Proof.
  rewrite forallb_forall. intros Hall Hj. apply Hall.
  apply list_elem_of_In, list_elem_of_lookup. eauto.
Qed.

Lemma forallb_weaken {A} (P Q : A → bool) (l : list A) :
  (∀ x, P x = true → Q x = true) → forallb P l = true → forallb Q l = true.
Proof. rewrite !forallb_forall. auto. Qed.

Lemma results_before_key evs j k :
  evs !! j = Some (EvWaitKey k) → length evs = S j →
  results (take j evs) = results evs.
Proof.
  intros Hj Hlen. rewrite <- (take_drop j evs) at 2.
  rewrite (drop_S _ _ _ Hj), drop_ge by lia.
  unfold results. rewrite omap_app. cbn. by rewrite app_nil_r.
Qed.

(** X3: a key poll answered with a key (a value of at least 0) ends the
    loop: the only call made after it is [cv::destroyWindow], and if that
    succeeds the call returns the array of the frames accumulated before
    the poll. *)
Theorem key_press_ends_loop env prhs r w' j k :
  mexFunction env prhs initial = (r, w') →
  calls w' !! j = Some (EvWaitKey k) →
  0 ≤ k →
  calls w' !! S j = Some EvDestroyWindow ∧
  length (calls w') = S (S j) ∧
  (destroyWindow env = Ok tt →
   ∃ out,
     r = Returned (Some out) ∧
     ∀ n, read_back (3 + n) (heap w') out =
            Some (host_frames (results (take j (calls w'))))).
Proof.
  intros Hrun Hj Hk. apply Z.geb_le in Hk.
  destruct (mexFunction_body _ _ _ _ _ Hrun) as (br & Hbody & Hr).
  apply body_run in Hbody
    as [(Hsetup & _)
       | (prm & sfl & vs & evs & lr & seq' & n' & _ & _ & _ & _ & Hloop & Hend)].
  { by pose proof (forallb_lookup _ _ _ _ Hsetup Hj). }
  cbv zeta in Hend.
  destruct Hend as [(Hf & Hc & _) | (-> & Hc & Hout & _)];
    rewrite Hc in Hj |- *; cbn [app] in Hj |- *; at_index_go j Hj.
  - destruct (loop_run_key_last _ _ _ _ _ _ _ _ _ _ _ Hloop _ _ Hj Hk) as [_ ->].
    inversion Hf.
  - apply lookup_app_Some in Hj as [Hj | [_ Hj]].
    2: { destruct (j - length evs)%nat as [|[|?]]; discriminate Hj. }
    destruct (loop_run_key_last _ _ _ _ _ _ _ _ _ _ _ Hloop _ _ Hj Hk) as [Hlen _].
    split; [| split].
    + change (((evs ++ [EvDestroyWindow]) !! S j) = Some EvDestroyWindow).
      rewrite lookup_app_r by lia. by rewrite Hlen, Nat.sub_diag.
    + cbn. rewrite length_app, Hlen. cbn. lia.
    + intros Hd. destruct Hout as [[-> _] | Hf]; [| rewrite Hd in Hf; inversion Hf].
      subst r. destruct (mexFunction_output _ _ _ _ Hrun) as (out & Hout & Hread).
      exists out. split; [by rewrite Hout |]. intros n.
      rewrite Hread, Hc. do 2 f_equal. cbn [app take].
      rewrite take_app_le by lia.
      unfold results. cbn. rewrite omap_app. cbn. rewrite app_nil_r.
      symmetry. exact (results_before_key _ _ _ Hj Hlen).
Qed.

Lemma key_press_ends_loop_witness :
  let prhs := [ex_string "model.dat"; ex_string "video.avi"] in
  let w' := snd (mexFunction ex_key_env prhs initial) in
  calls w' !! 11%nat = Some (EvWaitKey 27) ∧
  length (vs_reads ex_stream) = 3%nat ∧ reads_made (calls w') = 1%nat ∧
  results (take 11 (calls w')) = [mkFrame [ex_face; ex_face] 640 480] ∧
  calls w' !! 12%nat = Some EvDestroyWindow ∧
  length (calls w') = 13%nat ∧
  (destroyWindow ex_key_env = Ok tt →
   ∃ out,
     fst (mexFunction ex_key_env prhs initial) = Returned (Some out) ∧
     ∀ n, read_back (3 + n) (heap w') out =
            Some (host_frames (results (take 11 (calls w'))))).
Proof.
  intros prhs w'.
  split; [reflexivity |]. split; [reflexivity |]. split; [reflexivity |].
  split; [reflexivity |].
  apply (key_press_ends_loop ex_key_env prhs _ w' 11 27);
    [vm_compute; reflexivity | reflexivity | done].
Defined.

(** X4: when preview is off, the run makes no call to the display (no
    rendering, no text, no [imshow], no key poll); a run that returns has
    nevertheless called [cv::destroyWindow], as its last call. *)
Theorem no_preview_no_display env prhs prm r w' :
  parse_arguments env prhs initial = (Ok prm, initial) →
  preview prm = false →
  mexFunction env prhs initial = (r, w') →
  forallb (λ e, negb (is_gui_event e)) (calls w') = true ∧
  ∀ o, r = Returned o → last (calls w') = Some EvDestroyWindow.
Proof.
  intros Hparse Hprev Hrun.
  destruct (mexFunction_body _ _ _ _ _ Hrun) as (br & Hbody & Hr).
  apply body_run in Hbody
    as [(Hsetup & _ & _ & Hbr & _)
       | (prm' & sfl & vs & evs & lr & seq' & n' & H1 & _ & _ & _ & Hloop & Hend)].
  { split.
    - eapply forallb_weaken; [| exact Hsetup]. by intros [].
    - intros o ->. by destruct br as [[]| |]. }
  assert (prm' = prm) as -> by congruence. rewrite Hprev in Hloop.
  pose proof (loop_run_quiet _ _ _ _ _ _ _ _ _ _ Hloop) as Hquiet.
  cbv zeta in Hend.
  destruct Hend as [(Hf & Hc & _) | (-> & Hc & Hout & _)]; rewrite Hc.
  - split; [cbn; exact Hquiet |].
    intros o ->. destruct Hf; discriminate Hr.
  - split.
    + cbn. rewrite forallb_app, Hquiet. done.
    + intros o _. rewrite app_assoc. apply last_snoc.
Qed.

Lemma no_preview_no_display_witness :
  let prhs := [ex_string "model.dat"; ex_string "video.avi";
               ex_scalar mxDOUBLE_CLASS 1; ex_scalar mxLOGICAL_CLASS 0] in
  ∃ o w',
    mexFunction ex_env prhs initial = (Returned o, w') ∧
    forallb (λ e, negb (is_gui_event e)) (calls w') = true ∧
    ∀ o', Returned o = Returned o' → last (calls w') = Some EvDestroyWindow.
Proof.
  intros prhs. eexists _, _. split; [vm_compute; reflexivity |].
  apply (no_preview_no_display ex_env prhs
           (mkParams "video.avi" "model.dat" (-1) 0 0 1 false));
    [reflexivity | reflexivity | vm_compute; reflexivity].
Defined.

(** X5: the clean-up is only reached by a run that gets through the
    output conversion: when the call ends with an error (and
    [cv::destroyWindow] itself does not fail), [cv::destroyWindow] was not
    called, so a window opened by [imshow] is left open. *)
Theorem failed_run_skips_cleanup env prhs id msg w' :
  mexFunction env prhs initial = (Errored id msg, w') →
  destroyWindow env = Ok tt →
  ¬ In EvDestroyWindow (calls w').
Proof.
  intros Hrun Hd Hin.
  destruct (mexFunction_body _ _ _ _ _ Hrun) as (br & Hbody & Hr).
  apply body_run in Hbody
    as [(Hsetup & _)
       | (prm & sfl & vs & evs & lr & seq' & n' & _ & _ & _ & _ & Hloop & Hend)].
  { rewrite forallb_forall in Hsetup. by pose proof (Hsetup _ Hin). }
  cbv zeta in Hend.
  destruct Hend as [(Hf & Hc & _) | (-> & Hc & Hout & _)].
  - rewrite Hc in Hin. destruct Hin as [[=] | [[=] | [[=] | Hin]]].
    pose proof (loop_run_events _ _ _ _ _ _ _ _ _ _ _ Hloop) as Hev.
    rewrite forallb_forall in Hev. by pose proof (Hev _ Hin).
  - destruct Hout as [[-> _] | Hf]; [discriminate Hr |].
    rewrite Hd in Hf. inversion Hf.
Qed.

Lemma failed_run_skips_cleanup_witness :
  let prhs := [ex_string "model.dat"; ex_string "video.avi"] in
  let w' := snd (mexFunction ex_failing_env prhs initial) in
  mexFunction ex_failing_env prhs initial =
    (Errored parsing_id "Error: empty image", w') ∧
  In EvImshow (calls w') ∧
  ¬ In EvDestroyWindow (calls w').
Proof.
  intros prhs w'.
  assert (Hrun : mexFunction ex_failing_env prhs initial =
                   (Errored parsing_id "Error: empty image", w'))
    by (vm_compute; reflexivity).
  split; [exact Hrun |]. split; [vm_compute; tauto |].
  exact (failed_run_skips_cleanup ex_failing_env prhs _ _ w' Hrun eq_refl).
Defined.

(** ** Failures of the set-up *)

(** X6: when the source is created but [open()] answers [false], the call
    fails with "Failed to open video source!"; the session and the source
    were created, nothing was read, and no array was created. *)
Theorem open_failure env prhs prm sfl vs :
  parse_arguments env prhs initial = (Ok prm, initial) →
  sfl_create env (landmarksModelPath prm) (frame_scale prm) = Ok sfl →
  vsf_create env (inputPath prm) = Ok (Some vs) →
  vs_open vs = Ok false →
  ∃ w',
    mexFunction env prhs initial =
      (Errored parsing_id ("Error: " +:+ msg_open_failed), w') ∧
    calls w' = [EvSflCreate (landmarksModelPath prm) (frame_scale prm);
                EvVsfCreate (inputPath prm) false; EvOpen] ∧
    heap w' = [] ∧ plhs0 w' = None.
Proof.
  intros Hparse Hsfl Hvs Hopen.
  unfold mexFunction, body, bind, create_session, create_source, call.
  rewrite Hparse, Hsfl, Hvs, Hopen. cbn [negb]. cbv beta iota.
  eexists. split; [reflexivity |]. done.
Qed.

Lemma open_failure_witness :
  let prhs := [ex_string "model.dat"; ex_string "video.avi"] in
  ∃ w',
    mexFunction ex_closed_env prhs initial =
      (Errored parsing_id ("Error: " +:+ msg_open_failed), w') ∧
    calls w' = [EvSflCreate "model.dat" float_one;
                EvVsfCreate "video.avi" false; EvOpen] ∧
    heap w' = [] ∧ plhs0 w' = None.
Proof.
  intros prhs.
  exact (open_failure ex_closed_env prhs
           (mkParams "video.avi" "model.dat" (-1) 0 0 float_one true)
           ex_tracker (mkStream (Ok false) [])
           eq_refl eq_refl eq_refl eq_refl).
Defined.

(** X7: when the session cannot be created (the creation throws), the
    call fails with that exception's message before the video source is
    asked for: the creation of the session is the only call made. *)
Theorem session_failure_before_source env prhs prm what :
  parse_arguments env prhs initial = (Ok prm, initial) →
  sfl_create env (landmarksModelPath prm) (frame_scale prm) = Throw what →
  ∃ w',
    mexFunction env prhs initial =
      (Errored parsing_id ("Error: " +:+ what), w') ∧
    calls w' = [EvSflCreate (landmarksModelPath prm) (frame_scale prm)] ∧
    heap w' = [] ∧ plhs0 w' = None.
Proof.
  intros Hparse Hsfl.
  unfold mexFunction, body, bind, create_session.
  rewrite Hparse, Hsfl.
  eexists. split; [reflexivity |]. done.
Qed.

Lemma session_failure_before_source_witness :
  let prhs := [ex_string "model.dat"; ex_string "video.avi"] in
  ∃ w',
    mexFunction ex_no_model_env prhs initial =
      (Errored parsing_id "Error: Failed to load landmarks model", w') ∧
    calls w' = [EvSflCreate "model.dat" float_one] ∧
    heap w' = [] ∧ plhs0 w' = None.
Proof.
  intros prhs.
  exact (session_failure_before_source ex_no_model_env prhs
           (mkParams "video.avi" "model.dat" (-1) 0 0 float_one true)
           "Failed to load landmarks model" eq_refl eq_refl).
Defined.

(** ** The arguments *)

Lemma nrhs_gt (k : Z) (prhs : list mxArray) :
  k < Z.of_nat (length prhs) → (Z.of_nat (length prhs) >? k) = true.
Proof. intros H. by apply Z.gtb_lt. Qed.

Lemma nrhs_le (k : Z) (prhs : list mxArray) :
  Z.of_nat (length prhs) ≤ k → (Z.of_nat (length prhs) >? k) = false.
Proof. intros H. destruct (Z.gtb_spec (Z.of_nat (length prhs)) k); [lia | done]. Qed.

Lemma parse_arguments_first_five env a0 a1 a2 a3 a4 rest :
  parse_arguments env (a0 :: a1 :: a2 :: a3 :: a4 :: rest) =
  parse_arguments env [a0; a1; a2; a3; a4].
Proof.
  rewrite !parse_arguments_two.
  rewrite !(nrhs_gt _ (a0 :: a1 :: a2 :: a3 :: a4 :: rest)) by (cbn [length]; lia).
  rewrite !(nrhs_gt _ [a0; a1; a2; a3; a4]) by (cbn [length]; lia).
  reflexivity.
Qed.

Lemma parse_arguments_dataset_four env a0 a1 a2 a3 rest :
  isChar a1 = true →
  parse_arguments env (a0 :: a1 :: a2 :: a3 :: rest) =
  parse_arguments env [a0; a1; a2; a3].
Proof.
  intros Hc. rewrite !parse_arguments_two, Hc.
  rewrite !(nrhs_gt _ (a0 :: a1 :: a2 :: a3 :: rest)) by (cbn [length]; lia).
  rewrite !(nrhs_gt _ [a0; a1; a2; a3]) by (cbn [length]; lia).
  reflexivity.
Qed.

(** X8: arguments after the fifth are never looked at, and in dataset mode
    (a char array as second argument) neither are arguments after the
    fourth: a call with more arguments behaves as the call without them,
    and is not rejected for their number. *)
Theorem extra_arguments_ignored env a0 a1 a2 a3 a4 rest w :
  mexFunction env (a0 :: a1 :: a2 :: a3 :: a4 :: rest) w =
    mexFunction env [a0; a1; a2; a3; a4] w ∧
  (isChar a1 = true →
   mexFunction env (a0 :: a1 :: a2 :: a3 :: a4 :: rest) w =
     mexFunction env [a0; a1; a2; a3] w).
Proof.
  split.
  - unfold mexFunction, body. by rewrite parse_arguments_first_five.
  - intros Hc. unfold mexFunction, body.
    by rewrite (parse_arguments_dataset_four _ _ _ _ _ (a4 :: rest) Hc).
Qed.

Lemma extra_arguments_ignored_witness :
  let a0 := ex_string "model.dat" in
  let a1 := ex_string "video.avi" in
  let a2 := ex_scalar mxDOUBLE_CLASS 1 in
  let a3 := ex_scalar mxLOGICAL_CLASS 0 in
  let a4 := ex_string "ignored" in
  isChar a1 = true ∧
  mexFunction ex_env [a0; a1; a2; a3; a4; a4] initial =
    mexFunction ex_env [a0; a1; a2; a3] initial ∧
  ∃ out w', mexFunction ex_env [a0; a1; a2; a3] initial = (Returned (Some out), w').
Proof.
  intros a0 a1 a2 a3 a4. split; [reflexivity |]. split.
  - exact (proj2 (extra_arguments_ignored ex_env a0 a1 a2 a3 a4 [a4] initial)
                 eq_refl).
  - eexists _, _. vm_compute. reflexivity.
Defined.

(** In dataset mode the parameters carry the texts of the first two
    arguments, the scale read from the third argument (1.0f without it)
    and the preview flag read from the fourth (on without it). *)
Lemma dataset_mode_parameters env a0 a1 rest w prm w' :
  isChar a1 = true →
  parse_arguments env (a0 :: a1 :: rest) w = (Ok prm, w') →
  toString a0 = Ok (landmarksModelPath prm) ∧
  toString a1 = Ok (inputPath prm) ∧
  match rest with
  | [] => frame_scale prm = float_one
  | a2 :: _ => ∃ d, toDouble a2 = Ok d ∧ frame_scale prm = float_of_double env d
  end ∧
  match rest with
  | _ :: a3 :: _ => toBool a3 = Ok (preview prm)
  | _ => preview prm = true
  end.
Proof.
  intros Hc Hp. rewrite parse_arguments_two, Hc in Hp.
  destruct (isChar a0); [| done]. cbn [negb] in Hp.
  unfold bind at 1, access at 1 in Hp.
  destruct (toString a0) as [model| |]; [| done | done].
  unfold bind at 1, access at 1 in Hp.
  destruct (toString a1) as [path| |]; [| done | done].
  destruct rest as [|a2 [|a3 rest]].
  - rewrite !nrhs_le in Hp by (cbn [length]; lia).
    unfold bind, ret in Hp. by injection Hp as <- <-.
  - rewrite (nrhs_gt 2), (nrhs_le 3) in Hp by (cbn [length]; lia).
    unfold bind, ret, access in Hp. change (arg [a0; a1; a2] 2) with a2 in Hp.
    destruct (toDouble a2) as [d| |]; [| done | done].
    injection Hp as <- <-. cbn. repeat split; eauto.
  - rewrite (nrhs_gt 2), (nrhs_gt 3) in Hp by (cbn [length]; lia).
    unfold bind, ret, access in Hp.
    change (arg (a0 :: a1 :: a2 :: a3 :: rest) 2) with a2 in Hp.
    change (arg (a0 :: a1 :: a2 :: a3 :: rest) 3) with a3 in Hp.
    destruct (toDouble a2) as [d| |]; [| done | done].
    destruct (toBool a3) as [b| |]; [| done | done].
    injection Hp as <- <-. cbn. repeat split; eauto.
Qed.

(** The calls of a run whose arguments were accepted: the session is
    asked for first; if it is created, the source is asked for next, and
    no other session or source is asked for. *)
Lemma body_setup env prhs prm r w' :
  parse_arguments env prhs initial = (Ok prm, initial) →
  body env prhs initial = (r, w') →
  let created := EvSflCreate (landmarksModelPath prm) (frame_scale prm) in
  match sfl_create env (landmarksModelPath prm) (frame_scale prm) with
  | Ok _ =>
      ∃ null tail,
        calls w' = created :: EvVsfCreate (inputPath prm) null :: tail ∧
        ∀ e, In e tail →
             e = EvOpen ∨ is_loop_event e = true ∨ e = EvDestroyWindow
  | _ => calls w' = [created]
  end.
Proof.
  intros Hparse Hbody created.
  pose proof (body_run _ _ _ _ Hbody) as Hrun.
  revert Hbody. unfold body. unfold bind at 1. rewrite Hparse.
  unfold bind at 1, create_session.
  destruct (sfl_create env _ _) as [sfl|e|i s] eqn:Hsfl;
    [| by intros [= <- <-] ..].
  unfold bind at 1, create_source, call at 1.
  destruct (vsf_create env (inputPath prm)) as [[vs|]|e|i s] eqn:Hvs.
  2-4: intros [= <- <-]; eexists _, []; split; [reflexivity | by intros ? []].
  unfold bind at 1, call at 1.
  destruct (vs_open vs) as [[|]|e|i s] eqn:Hopen.
  2-4: intros [= <- <-]; exists false, [EvOpen];
       split; [reflexivity | intros ? [<- | []]; by left].
  intros _.
  destruct Hrun
    as [(_ & _ & _ & _ & Hno)
       | (prm' & sfl' & vs' & evs & lr & seq' & n' & H1 & _ & _ & _ & Hloop & Hend)].
  { destruct Hno. by exists prm, sfl, vs. }
  assert (prm' = prm) as -> by congruence.
  pose proof (loop_run_events _ _ _ _ _ _ _ _ _ _ _ Hloop) as Hev.
  rewrite forallb_forall in Hev.
  cbv zeta in Hend. exists false.
  destruct Hend as [(_ & Hc & _) | (_ & Hc & _)]; rewrite Hc; cbn [app].
  - exists (EvOpen :: evs). split; [done |].
    intros e [<- | Hin]; [by left | right; left; by apply Hev].
  - exists (EvOpen :: evs ++ [EvDestroyWindow]). split; [done |].
    intros e [<- | Hin]; [by left |].
    apply in_app_or in Hin as [Hin | [<- | []]];
      [right; left; by apply Hev | by right; right].
Qed.

Lemma lookup_In {A} (l : list A) (j : nat) (x : A) : l !! j = Some x → In x l.
Proof. intros H. by apply list_elem_of_In, list_elem_of_lookup_2 with j. Qed.

(** X9: when the arguments of a call in dataset mode (a char array as
    second argument) are accepted, the first call made creates the session
    from the text of the first argument and the scale of the third
    converted to [float] (1.0f without a third argument); if the session
    is created, the second call asks the factory for the source named by
    the text of the second argument.  No other session is created and no
    other source asked for. *)
Theorem dataset_mode_requests env a0 a1 rest prm r w' :
  isChar a1 = true →
  parse_arguments env (a0 :: a1 :: rest) initial = (Ok prm, initial) →
  mexFunction env (a0 :: a1 :: rest) initial = (r, w') →
  ∃ model scale path,
    toString a0 = Ok model ∧ toString a1 = Ok path ∧
    match rest with
    | [] => scale = float_one
    | a2 :: _ => ∃ d, toDouble a2 = Ok d ∧ scale = float_of_double env d
    end ∧
    calls w' !! 0%nat = Some (EvSflCreate model scale) ∧
    (∀ sfl, sfl_create env model scale = Ok sfl →
            ∃ null, calls w' !! 1%nat = Some (EvVsfCreate path null)) ∧
    (∀ j m s, calls w' !! j = Some (EvSflCreate m s) → j = 0%nat) ∧
    (∀ j p n, calls w' !! j = Some (EvVsfCreate p n) → j = 1%nat ∧ p = path).
Proof.
  intros Hc Hparse Hrun.
  destruct (dataset_mode_parameters _ _ _ _ _ _ _ Hc Hparse)
    as (Hmodel & Hpath & Hscale & _).
  destruct (mexFunction_body _ _ _ _ _ Hrun) as (br & Hbody & _).
  pose proof (body_setup _ _ _ _ _ Hparse Hbody) as Hsetup. cbv zeta in Hsetup.
  exists (landmarksModelPath prm), (frame_scale prm), (inputPath prm).
  do 3 (split; [done |]).
  destruct (sfl_create env _ _) as [sfl|e|i msg].
  - destruct Hsetup as (null & tail & -> & Htail).
    split; [done |]. split; [by exists null |]. split.
    + intros [|[|j]] m s Hj; [done | done |].
      cbn in Hj. apply lookup_In, Htail in Hj as [[=] | [[=] | [=]]].
    + intros [|[|j]] p n Hj; [done | by injection Hj as <- _ |].
      cbn in Hj. apply lookup_In, Htail in Hj as [[=] | [[=] | [=]]].
  - rewrite Hsetup. split; [done |]. split; [done |]. split.
    + by intros [|j] m s Hj.
    + by intros [|j] p n Hj.
  - rewrite Hsetup. split; [done |]. split; [done |]. split.
    + by intros [|j] m s Hj.
    + by intros [|j] p n Hj.
Qed.

Lemma dataset_mode_requests_witness :
  let a0 := ex_string "model.dat" in
  let a1 := ex_string "video.avi" in
  let w' := snd (mexFunction ex_cast_env [a0; a1; ex_half] initial) in
  isChar a1 = true ∧
  calls w' !! 0%nat = Some (EvSflCreate "model.dat" 1056964608) ∧
  calls w' !! 1%nat = Some (EvVsfCreate "video.avi" false) ∧
  ∃ model scale path,
    toString a0 = Ok model ∧ toString a1 = Ok path ∧
    (∃ d, toDouble ex_half = Ok d ∧ scale = float_of_double ex_cast_env d) ∧
    calls w' !! 0%nat = Some (EvSflCreate model scale) ∧
    (∀ sfl, sfl_create ex_cast_env model scale = Ok sfl →
            ∃ null, calls w' !! 1%nat = Some (EvVsfCreate path null)) ∧
    (∀ j m s, calls w' !! j = Some (EvSflCreate m s) → j = 0%nat) ∧
    (∀ j p n, calls w' !! j = Some (EvVsfCreate p n) → j = 1%nat ∧ p = path).
Proof.
  intros a0 a1 w'.
  split; [reflexivity |]. split; [vm_compute; reflexivity |].
  split; [vm_compute; reflexivity |].
  apply (dataset_mode_requests ex_cast_env a0 a1 [ex_half]
           (mkParams "video.avi" "model.dat" (-1) 0 0 1056964608 true)
           (fst (mexFunction ex_cast_env [a0; a1; ex_half] initial)) w');
    [reflexivity | vm_compute; reflexivity | vm_compute; reflexivity].
Defined.

(** ** The faces array *)

(** X10: in the array of a run that returns, the [faces] field of a frame
    with M > 0 faces is a 1-by-M struct array with the fields [landmarks]
    and [bbox]; the [landmarks] of a face with N landmarks is an N-by-2
    matrix and its [bbox] a 1-by-4 row. *)
Theorem faces_array_shape env prhs o w' i fr :
  mexFunction env prhs initial = (Returned o, w') →
  results (calls w') !! i = Some fr →
  faces fr ≠ [] →
  ∃ out v entries,
    o = Some out ∧ (∀ n, read_back (3 + n) (heap w') out = Some v) ∧
    mx_field v i "faces" =
      Some (MxStruct 1 (length (faces fr)) ["landmarks"; "bbox"] entries) ∧
    length entries = length (faces fr) ∧
    ∀ j f, faces fr !! j = Some f →
      ∃ rows row,
        entries !! j = Some [Some (MxNumeric (length (landmarks f)) 2 rows);
                             Some (MxNumeric 1 4 [row])] ∧
        length rows = length (landmarks f) ∧
        Forall (λ r, length r = 2%nat) rows ∧ length row = 4%nat.
Proof.
  intros (out & -> & Hread)%mexFunction_output Hfr Hne.
  exists out, (host_frames (results (calls w'))), (host_face <$> faces fr).
  split; [done |]. split; [exact Hread |].
  split; [by apply host_frames_faces |]. split; [apply length_fmap |].
  intros j f Hf. rewrite list_lookup_fmap, Hf. cbn.
  exists (landmarks_matrix f), (bbox_row f).
  assert (Hlen : length (landmarks_matrix f) = length (landmarks f)).
  { unfold landmarks_matrix, mat_of_points. by rewrite !length_fmap. }
  unfold host_face. rewrite Hlen. repeat split.
  unfold landmarks_matrix, mat_of_points. by apply Forall_fmap, Forall_true.
Qed.

Lemma faces_array_shape_witness :
  let prhs := [ex_string "model.dat"; ex_string "video.avi"] in
  ∃ o w',
    mexFunction ex_env prhs initial = (Returned o, w') ∧
    ∃ out v entries,
      o = Some out ∧ (∀ n, read_back (3 + n) (heap w') out = Some v) ∧
      mx_field v 0 "faces" = Some (MxStruct 1 2 ["landmarks"; "bbox"] entries) ∧
      length entries = 2%nat ∧
      ∀ j f, [ex_face; ex_face] !! j = Some f →
        ∃ rows row,
          entries !! j = Some [Some (MxNumeric (length (landmarks f)) 2 rows);
                               Some (MxNumeric 1 4 [row])] ∧
          length rows = length (landmarks f) ∧
          Forall (λ r, length r = 2%nat) rows ∧ length row = 4%nat.
Proof.
  intros prhs. eexists _, _. split; [vm_compute; reflexivity |].
  apply (faces_array_shape ex_env prhs _ _ 0 (mkFrame [ex_face; ex_face] 640 480));
    [vm_compute; reflexivity | reflexivity | discriminate].
Defined.

(** ** What the session is fed, and the face counter *)

Lemma trace_of_failed_run (opened evs : list Event) :
  forallb is_setup_event opened = true →
  results (opened ++ evs) = results evs ∧
  counter_texts (opened ++ evs) = counter_texts evs.
Proof.
  intros Hsetup.
  assert (∀ {A} (f : Event → option A),
            (∀ e, is_setup_event e = true → f e = None) →
            omap f (opened ++ evs) = omap f evs) as Homap.
  { intros A f Hf. rewrite omap_app.
    replace (omap f opened) with (@nil A); [done |].
    clear -Hsetup Hf. induction opened as [|e l IH]; [done |].
    cbn in Hsetup. apply andb_prop in Hsetup as [He Hl].
    cbn. rewrite (Hf e He). by apply IH. }
  unfold results, counter_texts. split; apply Homap; by intros [].
Qed.

(** X11: the array of a run that returns is the marshalled form of what
    the tracker of the session answers when it is fed the pushed images one
    after the other, each together with the results before it: element [k]
    of the output stems from the [k]-th pushed image. *)
Theorem results_follow_pushed_images env prhs o w' :
  mexFunction env prhs initial = (Returned o, w') →
  ∃ prm sfl frs out,
    parse_arguments env prhs initial = (Ok prm, initial) ∧
    sfl_create env (landmarksModelPath prm) (frame_scale prm) = Ok sfl ∧
    track sfl [] (pushed (calls w')) = Some frs ∧
    o = Some out ∧
    ∀ n, read_back (3 + n) (heap w') out = Some (host_frames frs).
Proof.
  intros Hrun.
  destruct (mexFunction_output _ _ _ _ Hrun) as (out & Hout & Hread).
  destruct (mexFunction_body _ _ _ _ _ Hrun) as (br & Hbody & Hr).
  apply body_run in Hbody
    as [(_ & _ & _ & Hbr & _)
       | (prm & sfl & vs & evs & lr & seq' & n' & H1 & H2 & _ & _ & Hloop & Hend)].
  { by destruct br as [[]| |]. }
  cbv zeta in Hend.
  destruct Hend as [(Hf & _) | (-> & Hc & _)].
  { destruct Hf; discriminate Hr. }
  exists prm, sfl, (results (calls w')), out.
  split; [done |]. split; [done |]. split; [| done].
  destruct (trace_of_returned_run
              [EvSflCreate (landmarksModelPath prm) (frame_scale prm);
               EvVsfCreate (inputPath prm) false; EvOpen] evs eq_refl)
    as (_ & Ep & Er & _).
  rewrite Hc, Ep, Er.
  by apply (loop_run_track _ _ _ _ _ _ _ _ _ _ _ Hloop).
Qed.

Lemma results_follow_pushed_images_witness :
  let prhs := [ex_string "model.dat"; ex_string "video.avi"] in
  ∃ o w',
    mexFunction ex_env prhs initial = (Returned o, w') ∧
    pushed (calls w') = [ex_image 1; ex_image 0] ∧
    ∃ prm sfl frs out,
      parse_arguments ex_env prhs initial = (Ok prm, initial) ∧
      sfl_create ex_env (landmarksModelPath prm) (frame_scale prm) = Ok sfl ∧
      track sfl [] (pushed (calls w')) = Some frs ∧
      o = Some out ∧
      ∀ n, read_back (3 + n) (heap w') out = Some (host_frames frs).
Proof.
  intros prhs. eexists _, _. split; [vm_compute; reflexivity |].
  split; [reflexivity |].
  eapply (results_follow_pushed_images ex_env prhs). vm_compute; reflexivity.
Defined.

(** X12: with preview on, one counter text is drawn per frame the session
    accumulated, and the [k]-th text reads "Faces found so far: " followed
    by the number of faces in the first [k] frames (taken as an [int]). *)
Theorem counter_shows_faces_so_far env prhs prm r w' :
  parse_arguments env prhs initial = (Ok prm, initial) →
  preview prm = true →
  mexFunction env prhs initial = (r, w') →
  counter_texts (calls w') =
    (λ total, "Faces found so far: " +:+ pretty (int_wrap total)) <$>
      running_totals 0 (face_count <$> results (calls w')).
Proof.
  intros Hparse Hprev Hrun.
  destruct (mexFunction_body _ _ _ _ _ Hrun) as (br & Hbody & Hr).
  apply body_run in Hbody
    as [(Hsetup & _)
       | (prm' & sfl & vs & evs & lr & seq' & n' & H1 & _ & _ & _ & Hloop & Hend)].
  { destruct (trace_of_failed_run (calls w') [] Hsetup) as [Er Et].
    rewrite app_nil_r in Er, Et. by rewrite Er, Et. }
  assert (prm' = prm) as -> by congruence. rewrite Hprev in Hloop.
  pose proof (loop_run_counter _ _ _ _ _ _ _ _ _ _ Hloop 0 eq_refl) as Htexts.
  cbv zeta in Hend.
  destruct Hend as [(_ & Hc & _) | (_ & Hc & _)]; rewrite Hc.
  - destruct (trace_of_failed_run
                [EvSflCreate (landmarksModelPath prm) (frame_scale prm);
                 EvVsfCreate (inputPath prm) false; EvOpen] evs eq_refl)
      as (-> & ->).
    exact Htexts.
  - destruct (trace_of_returned_run
                [EvSflCreate (landmarksModelPath prm) (frame_scale prm);
                 EvVsfCreate (inputPath prm) false; EvOpen] evs eq_refl)
      as (_ & _ & -> & ->).
    exact Htexts.
Qed.

Lemma counter_shows_faces_so_far_witness :
  let prhs := [ex_string "model.dat"; ex_string "video.avi"] in
  let w' := snd (mexFunction ex_env prhs initial) in
  face_count <$> results (calls w') = [2; 0] ∧
  counter_texts (calls w') =
    ["Faces found so far: 2"; "Faces found so far: 2"] ∧
  counter_texts (calls w') =
    (λ total, "Faces found so far: " +:+ pretty (int_wrap total)) <$>
      running_totals 0 (face_count <$> results (calls w')).
Proof.
  intros prhs w'. split; [reflexivity |]. split; [vm_compute; reflexivity |].
  apply (counter_shows_faces_so_far ex_env prhs
           (mkParams "video.avi" "model.dat" (-1) 0 0 float_one true)
           (fst (mexFunction ex_env prhs initial)));
    [reflexivity | reflexivity | vm_compute; reflexivity].
Defined.

(** ** The session after the output conversion *)

Section session.
Local Open Scope nat_scope.
Local Arguments mxSetField : simpl never.

Lemma mxSetField_sequence pm i name v w :
  sequence (mxSetField pm i name v w) = sequence w.
Proof.
  unfold mxSetField.
  destruct (heap w !! pm) as [[|r c fs es]|]; [done | | done].
  by destruct (field_number fs name), (es !! i).
Qed.

Lemma output_face_sequence pf i j w fr f :
  sequence w !! i = Some fr → faces fr !! j = Some f →
  sequence (output_face pf i j w) =
    alter (λ fr, set_faces (alter (λ _, increment_face f) j (faces fr)) fr) i
          (sequence w).
Proof.
  intros Hfr Hf. unfold output_face. rewrite Hfr. cbn [mbind option_bind].
  rewrite Hf. unfold MxArray_Mat, MxArray_Rect, alloc.
  repeat first [rewrite mxSetField_sequence | progress cbn].
  apply list_eq. intros i'. destruct (decide (i = i')) as [<- | Hne].
  - rewrite !list_lookup_alter_eq, Hfr. cbn. do 2 f_equal.
    apply list_eq. intros j'. destruct (decide (j = j')) as [<- | Hne].
    + by rewrite !list_lookup_alter_eq, Hf.
    + by rewrite !list_lookup_alter_ne.
  - by rewrite !list_lookup_alter_ne.
Qed.

(** The loop over the faces of frame [i] increments the faces [j], ...,
    [j + c - 1] of that frame and nothing else. *)
Lemma faces_loop_sequence pf i :
  ∀ c j w fr,
    sequence w !! i = Some fr → j + c ≤ length (faces fr) →
    ∃ fr',
      sequence (for_each c j (output_face pf i) w) !! i = Some fr' ∧
      width fr' = width fr ∧ height fr' = height fr ∧
      (∀ j', faces fr' !! j' =
               if bool_decide (j ≤ j' < j + c)
               then increment_face <$> faces fr !! j' else faces fr !! j') ∧
      (∀ i', i' ≠ i →
             sequence (for_each c j (output_face pf i) w) !! i' = sequence w !! i') ∧
      length (sequence (for_each c j (output_face pf i) w)) = length (sequence w).
Proof.
  induction c as [|c IH]; intros j w fr Hfr Hlen.
  - exists fr. cbn [for_each]. repeat split; try done.
    intros j'. case_bool_decide; [lia | done].
  - cbn [for_each].
    destruct (lookup_lt_is_Some_2 (faces fr) j) as [f Hf]; [lia |].
    pose proof (output_face_sequence pf i j w fr f Hfr Hf) as Hseq.
    set (w1 := output_face pf i j w) in *.
    set (fr1 := set_faces (alter (λ _, increment_face f) j (faces fr)) fr).
    assert (Hfr1 : sequence w1 !! i = Some fr1).
    { by rewrite Hseq, list_lookup_alter_eq, Hfr. }
    destruct (IH (S j) w1 fr1 Hfr1) as (fr' & Hfr' & Hw & Hh & Hfaces & Hoth & Hl).
    { cbn. rewrite length_alter. lia. }
    exists fr'. split; [done |]. split; [done |]. split; [done |].
    split; [| split].
    + intros j'. rewrite Hfaces. cbn.
      destruct (decide (j' = j)) as [-> | Hne].
      * rewrite list_lookup_alter_eq, Hf.
        repeat case_bool_decide; try lia; done.
      * rewrite list_lookup_alter_ne by done.
        repeat case_bool_decide; try lia; done.
    + intros i' Hi'. rewrite Hoth by done.
      by rewrite Hseq, list_lookup_alter_ne.
    + by rewrite Hl, Hseq, length_alter.
Qed.

Lemma increment_frame_eq fr fr' :
  width fr' = width fr → height fr' = height fr →
  faces fr' = increment_face <$> faces fr →
  fr' = increment_frame fr.
Proof.
  destruct fr, fr'. unfold increment_frame, set_faces. cbn.
  by intros -> -> ->.
Qed.

(** One frame: its faces are incremented, the other frames are kept. *)
Lemma output_frame_sequence out i w fr :
  sequence w !! i = Some fr →
  sequence (output_frame out i w) !! i = Some (increment_frame fr) ∧
  (∀ i', i' ≠ i → sequence (output_frame out i w) !! i' = sequence w !! i') ∧
  length (sequence (output_frame out i w)) = length (sequence w).
Proof.
  intros Hfr. unfold output_frame. rewrite Hfr.
  unfold MxArray_int, mxCreateStructArray, alloc. cbn.
  destruct (faces fr) as [|f fs] eqn:Hfaces.
  - repeat first [rewrite mxSetField_sequence | progress cbn]. repeat split; try done.
    rewrite Hfr. f_equal. apply increment_frame_eq; try done. by rewrite Hfaces.
  - match goal with
    | |- context [for_each ?c 0 (output_face ?pf i) ?w6] =>
        pose proof (faces_loop_sequence pf i c 0 w6 fr) as Hloop
    end.
    destruct Hloop as (fr' & Hfr' & Hw & Hh & Hf' & Hoth & Hl).
    { by repeat first [rewrite mxSetField_sequence | progress cbn]. }
    { rewrite Hfaces. cbn. lia. }
    repeat first [rewrite mxSetField_sequence in Hoth | progress cbn in Hoth].
    repeat first [rewrite mxSetField_sequence in Hl | progress cbn in Hl].
    split; [| by split].
    rewrite Hfr'. f_equal. apply increment_frame_eq; try done.
    apply list_eq. intros j'. rewrite Hf', list_lookup_fmap, Hfaces.
    case_bool_decide as Hj; [done |].
    rewrite lookup_ge_None_2; [done |]. cbn in Hj |- *. lia.
Qed.

(** The loop over the frames increments the frames [i], ..., [i + c - 1]. *)
Lemma frames_loop_sequence out :
  ∀ c i w,
    i + c ≤ length (sequence w) →
    length (sequence (for_each c i (output_frame out) w)) = length (sequence w) ∧
    ∀ i', sequence (for_each c i (output_frame out) w) !! i' =
            if bool_decide (i ≤ i' < i + c)
            then increment_frame <$> sequence w !! i' else sequence w !! i'.
Proof.
  induction c as [|c IH]; intros i w Hlen.
  - cbn [for_each]. split; [done |].
    intros i'. case_bool_decide; [lia | done].
  - cbn [for_each].
    destruct (lookup_lt_is_Some_2 (sequence w) i) as [fr Hfr]; [lia |].
    destruct (output_frame_sequence out i w fr Hfr) as (Hi & Hoth & Hl).
    destruct (IH (S i) (output_frame out i w)) as [Hl' Hall]; [lia |].
    split; [lia |].
    intros i'. rewrite Hall.
    destruct (decide (i' = i)) as [-> | Hne].
    + rewrite Hi, Hfr. repeat case_bool_decide; try lia; done.
    + rewrite Hoth by done. repeat case_bool_decide; try lia; done.
Qed.

Lemma output_results_sequence w :
  sequence (output_results w) = increment_frame <$> sequence w.
Proof.
  unfold output_results, mxCreateStructArray, alloc. cbn.
  match goal with
  | |- context [for_each ?c 0 (output_frame ?out) ?w1] =>
      destruct (frames_loop_sequence out c 0 w1) as [Hl Hall]; [done |]
  end.
  apply list_eq. intros i'. rewrite Hall, list_lookup_fmap. cbn.
  case_bool_decide as Hi; [done |].
  rewrite lookup_ge_None_2; [done | lia].
Qed.
End session.

(** X13: the output conversion changes the session it reads from: when
    the call returns, every landmark held by the session has been
    incremented in place (x and y, as [int]s), while the number of frames
    and of faces, the sizes of the frames and the bounding boxes are as
    the tracker delivered them. *)
Theorem session_landmarks_shifted env prhs o w' :
  mexFunction env prhs initial = (Returned o, w') →
  sequence w' = increment_frame <$> results (calls w').
Proof.
  intros Hrun.
  destruct (mexFunction_body _ _ _ _ _ Hrun) as (br & Hbody & Hr).
  apply body_run in Hbody
    as [(_ & _ & _ & Hbr & _)
       | (prm & sfl & vs & evs & lr & seq' & n' & _ & _ & _ & _ & Hloop & Hend)].
  { by destruct br as [[]| |]. }
  cbv zeta in Hend.
  destruct Hend as [(Hf & _) | (-> & Hc & _ & w5 & Hseq & _ & ->)].
  { destruct Hf; discriminate Hr. }
  destruct (trace_of_returned_run
              [EvSflCreate (landmarksModelPath prm) (frame_scale prm);
               EvVsfCreate (inputPath prm) false; EvOpen] evs eq_refl)
    as (_ & _ & Er & _).
  rewrite Hc, Er.
  destruct (loop_run_track _ _ _ _ _ _ _ _ _ _ _ Hloop) as [Hs _].
  change (sequence (output_results w5) = increment_frame <$> results evs).
  by rewrite output_results_sequence, Hseq, Hs.
Qed.

Lemma session_landmarks_shifted_witness :
  let prhs := [ex_string "model.dat"; ex_string "video.avi"] in
  ∃ o w',
    mexFunction ex_env prhs initial = (Returned o, w') ∧
    results (calls w') =
      [mkFrame [ex_face; ex_face] 640 480; mkFrame [] 640 480] ∧
    sequence w' = increment_frame <$> results (calls w').
Proof.
  intros prhs. eexists _, _. split; [vm_compute; reflexivity |].
  split; [reflexivity |].
  eapply (session_landmarks_shifted ex_env prhs). vm_compute; reflexivity.
Defined.

(** ** Live-device mode and rejected arguments *)

(** In live-device mode the scale is read from the fifth argument (1.0f
    without it); the third and the fourth are read as width and height. *)
Lemma live_mode_scale env a0 a1 rest w prm w' :
  isChar a1 = false →
  parse_arguments env (a0 :: a1 :: rest) w = (Ok prm, w') →
  toString a0 = Ok (landmarksModelPath prm) ∧
  match rest with
  | _ :: _ :: a4 :: _ =>
      ∃ d, toDouble a4 = Ok d ∧ frame_scale prm = float_of_double env d
  | _ => frame_scale prm = float_one
  end ∧
  match rest with
  | a2 :: _ => toInt a2 = Ok (p_width prm)
  | [] => p_width prm = 0
  end ∧
  match rest with
  | _ :: a3 :: _ => toInt a3 = Ok (p_height prm)
  | _ => p_height prm = 0
  end.
Proof.
  intros Hc Hp. rewrite parse_arguments_two, Hc in Hp.
  destruct (isChar a0); [| done]. cbn [negb] in Hp.
  unfold bind at 1, access at 1 in Hp.
  destruct (toString a0) as [model| |]; [| done | done].
  destruct (isInt32 a1 || isDouble a1); [| done].
  unfold bind at 1, access at 1 in Hp.
  destruct (toInt a1) as [dev| |]; [| done | done].
  destruct rest as [|a2 [|a3 [|a4 rest]]].
  - rewrite !nrhs_le in Hp by (cbn [length]; lia).
    unfold bind, ret in Hp. by injection Hp as <- <-.
  - rewrite (nrhs_gt 2), !nrhs_le in Hp by (cbn [length]; lia).
    unfold bind, ret, access in Hp. change (arg [a0; a1; a2] 2) with a2 in Hp.
    destruct (toInt a2) as [wd| |]; [| done | done].
    by injection Hp as <- <-.
  - rewrite (nrhs_gt 2), (nrhs_gt 3), nrhs_le in Hp by (cbn [length]; lia).
    unfold bind, ret, access in Hp.
    change (arg [a0; a1; a2; a3] 2) with a2 in Hp.
    change (arg [a0; a1; a2; a3] 3) with a3 in Hp.
    destruct (toInt a2) as [wd| |]; [| done | done].
    destruct (toInt a3) as [ht| |]; [| done | done].
    by injection Hp as <- <-.
  - rewrite (nrhs_gt 2), (nrhs_gt 3), (nrhs_gt 4) in Hp by (cbn [length]; lia).
    unfold bind, ret, access in Hp.
    change (arg (a0 :: a1 :: a2 :: a3 :: a4 :: rest) 2) with a2 in Hp.
    change (arg (a0 :: a1 :: a2 :: a3 :: a4 :: rest) 3) with a3 in Hp.
    change (arg (a0 :: a1 :: a2 :: a3 :: a4 :: rest) 4) with a4 in Hp.
    destruct (toInt a2) as [wd| |]; [| done | done].
    destruct (toInt a3) as [ht| |]; [| done | done].
    destruct (toDouble a4) as [d| |]; [| done | done].
    injection Hp as <- <-. cbn. repeat split; eauto.
Qed.

(** X14: when the arguments of a call in live-device mode (second argument
    not a char array) are accepted, the first call made creates the
    session from the text of the first argument and the scale of the fifth
    argument converted to [float], and 1.0f when there are fewer than five
    arguments (a third or a fourth argument leaves it at 1.0f).  No other
    session is created. *)
Theorem live_mode_session_scale env a0 a1 rest prm r w' :
  isChar a1 = false →
  parse_arguments env (a0 :: a1 :: rest) initial = (Ok prm, initial) →
  mexFunction env (a0 :: a1 :: rest) initial = (r, w') →
  ∃ model scale,
    toString a0 = Ok model ∧
    match rest with
    | _ :: _ :: a4 :: _ =>
        ∃ d, toDouble a4 = Ok d ∧ scale = float_of_double env d
    | _ => scale = float_one
    end ∧
    calls w' !! 0%nat = Some (EvSflCreate model scale) ∧
    ∀ j m s, calls w' !! j = Some (EvSflCreate m s) → j = 0%nat.
Proof.
  intros Hc Hparse Hrun.
  destruct (live_mode_scale _ _ _ _ _ _ _ Hc Hparse) as (Hmodel & Hscale & _).
  destruct (mexFunction_body _ _ _ _ _ Hrun) as (br & Hbody & _).
  pose proof (body_setup _ _ _ _ _ Hparse Hbody) as Hsetup. cbv zeta in Hsetup.
  exists (landmarksModelPath prm), (frame_scale prm).
  do 2 (split; [done |]).
  destruct (sfl_create env _ _) as [sfl|e|i msg].
  - destruct Hsetup as (null & tail & -> & Htail).
    split; [done |].
    intros [|[|j]] m s Hj; [done | done |].
    cbn in Hj. apply lookup_In, Htail in Hj as [[=] | [[=] | [=]]].
  - rewrite Hsetup. split; [done |]. by intros [|j] m s Hj.
  - rewrite Hsetup. split; [done |]. by intros [|j] m s Hj.
Qed.

Lemma live_mode_session_scale_witness :
  let a0 := ex_string "model.dat" in
  let a1 := ex_scalar mxDOUBLE_CLASS 0 in
  let size := [ex_scalar mxDOUBLE_CLASS 640; ex_scalar mxDOUBLE_CLASS 480] in
  let w' := snd (mexFunction ex_cast_env (a0 :: a1 :: size ++ [ex_half]) initial) in
  isChar a1 = false ∧
  calls w' !! 0%nat = Some (EvSflCreate "model.dat" 1056964608) ∧
  ∃ model scale,
    toString a0 = Ok model ∧
    (∃ d, toDouble ex_half = Ok d ∧ scale = float_of_double ex_cast_env d) ∧
    calls w' !! 0%nat = Some (EvSflCreate model scale) ∧
    ∀ j m s, calls w' !! j = Some (EvSflCreate m s) → j = 0%nat.
Proof.
  intros a0 a1 size w'.
  split; [reflexivity |]. split; [vm_compute; reflexivity |].
  apply (live_mode_session_scale ex_cast_env a0 a1 (size ++ [ex_half])
           (mkParams "" "model.dat" 0 640 480 1056964608 true)
           (fst (mexFunction ex_cast_env (a0 :: a1 :: size ++ [ex_half]) initial))
           w');
    [reflexivity | vm_compute; reflexivity | vm_compute; reflexivity].
Defined.

(** X15: arguments that are not accepted (a wrong number, a wrong class,
    or an accessor that fails on one of them) end the call with an error
    before anything else happens: no collaborator is called and no array
    is created. *)
Theorem rejected_arguments_touch_nothing env prhs pr w :
  parse_arguments env prhs initial = (pr, w) →
  (∀ prm, pr ≠ Ok prm) →
  ∃ id msg, mexFunction env prhs initial = (Errored id msg, initial).
Proof.
  intros Hparse Hrej.
  pose proof (parse_arguments_pure _ _ _ _ _ Hparse) as ->.
  unfold mexFunction, body, bind. rewrite Hparse.
  destruct pr as [prm|e|i s]; [by destruct (Hrej prm) | eauto ..].
Qed.

Lemma rejected_arguments_touch_nothing_witness :
  let prhs := [ex_string "model.dat"; ex_string "video.avi";
               ex_string "not a number"] in
  parse_arguments ex_env prhs initial =
    (MexError "mexopencv:error" "MxArray is not a scalar", initial) ∧
  ∃ id msg, mexFunction ex_env prhs initial = (Errored id msg, initial).
Proof.
  intros prhs. split; [reflexivity |].
  apply (rejected_arguments_touch_nothing ex_env prhs
           (MexError "mexopencv:error" "MxArray is not a scalar") initial);
    [reflexivity | discriminate].
Defined.

(** * Skipped pulls and exceptions, over every run *)

(** ** Pulls that are not updated *)

(** The readings of the trace of a run that reached the loop are those of
    the calls of the loop. *)
Lemma run_readings m s p b evs tail :
  tail = [] ∨ tail = [EvDestroyWindow] →
  let l := EvSflCreate m s :: EvVsfCreate p b :: EvOpen :: evs ++ tail in
  flags l = flags evs ∧ pushed l = pushed evs ∧ results l = results evs ∧
  reads_made l = reads_made evs ∧
  (∀ k, In (EvWaitKey k) evs → In (EvWaitKey k) l) ∧
  (∀ img res, In (EvAddFrame img res) l → In (EvAddFrame img res) evs) ∧
  (In EvImshow l → In EvImshow evs).
Proof.
  intros Htail l. subst l.
  unfold flags, pushed, results, reads_made. cbn.
  rewrite !omap_app, List.filter_app, length_app.
  destruct Htail as [-> | ->]; cbn; rewrite !app_nil_r, Nat.add_0_r.
  - repeat split; try done.
    + intros k Hin. by do 3 right.
    + by intros img res [[=] | [[=] | [[=] | Hin]]].
    + by intros [[=] | [[=] | [[=] | Hin]]].
  - repeat split; try done.
    + intros k Hin. do 3 right. apply in_or_app. by left.
    + intros img res [[=] | [[=] | [[=] | Hin]]].
      by apply in_app_or in Hin as [Hin | [[=] | []]].
    + intros [[=] | [[=] | [[=] | Hin]]].
      by apply in_app_or in Hin as [Hin | [[=] | []]].
Qed.

(** A run that stopped in the set-up made no call of the loop. *)
Lemma setup_readings (l : list Event) :
  forallb is_setup_event l = true →
  flags l = [] ∧ pushed l = [] ∧ reads_made l = 0%nat ∧
  ∀ e, In e l → is_setup_event e = true.
Proof.
  intros Hl. split; [| split; [| split]].
  - induction l as [|[] l IH]; try done; by apply IH.
  - induction l as [|[] l IH]; try done; by apply IH.
  - induction l as [|[] l IH]; try done; by apply IH.
  - by apply forallb_forall.
Qed.

(** Every run of the loop calls [read()] at least once. *)
Lemma loop_run_reads env tr prev reads fc seq n evs r seq' n' :
  loop_run env tr prev reads fc seq n evs r seq' n' →
  (1 ≤ reads_made evs)%nat.
Proof. induction 1; unfold reads_made; cbn; lia. Qed.

Ltac pulls_facts := split; [| split; [| split; [| split; [| split]]]].

(** The pulls of a run of the loop: it consumes a prefix [done] of the
    reads and pushes the images of the updated pulls among them; after a
    pull that is not updated it calls [read()] again; and it consumes all
    the reads when it returns without a key having been pressed. *)
Lemma loop_run_pulls env tr prev reads fc seq n evs r seq' n' :
  loop_run env tr prev reads fc seq n evs r seq' n' →
  ∃ done : list Pull,
    (Ok <$> done) `prefix_of` reads ∧
    flags evs = updated <$> done ∧
    pushed evs = image <$> updated_pulls done ∧
    (∀ k p, done !! k = Some p → updated p = false →
            (S k < reads_made evs)%nat) ∧
    (r = Ok tt → length (results evs) = length (updated_pulls done)) ∧
    (r = Ok tt → (∀ k, In (EvWaitKey k) evs → k < 0) → Ok <$> done = reads).
Proof.
  induction 1 as [ | ? ? ? ? ? ? Hf
                 | ? ? ? ? ? ? ? ? ? Hrun (done & Hpre & Hfl & Hpu & Hsk & Hlen & Hall)
                 | ? ? ? ? ? ? Hf
                 | ? ? ? ? ? ? ? ? ? ? ? Htr Hrun (done & Hpre & Hfl & Hpu & Hsk & Hlen & Hall)
                 | ? ? ? ? ? ? ? ? Htr Hf | ? ? ? ? ? ? ? Htr ? Hkey
                 | ? ? ? ? ? ? ? ? ? ? ? Htr ? Hkey Hrun (done & Hpre & Hfl & Hpu & Hsk & Hlen & Hall) ].
  - exists []. pulls_facts; by try intros k p Hk.
  - exists []. pulls_facts;
      first [done | apply prefix_nil | by intros k p Hk
            | intros ->; inversion Hf].
  - exists (mkPull false img :: done).
    pose proof (loop_run_reads _ _ _ _ _ _ _ _ _ _ _ Hrun) as Hone.
    unfold flags, pushed, results, reads_made in *. cbn.
    pulls_facts.
    + by apply prefix_cons.
    + by rewrite Hfl.
    + done.
    + intros [|k] p Hk Hp; [lia |]. apply (Hsk k p Hk) in Hp. lia.
    + done.
    + intros Hr Hkeys. rewrite (Hall Hr); [done |].
      intros k Hin. apply Hkeys. by do 2 right.
  - exists [mkPull true img]. pulls_facts;
      first [done | apply prefix_cons, prefix_nil
            | by intros [|k] p Hk Hp; simplify_eq/=
            | intros ->; inversion Hf].
  - exists (mkPull true img :: done).
    unfold flags, pushed, results, reads_made, pushed_events in *. cbn.
    pulls_facts.
    + by apply prefix_cons.
    + by rewrite Hfl.
    + by rewrite Hpu.
    + intros [|k] p Hk Hp; [by simplify_eq/= |]. apply (Hsk k p Hk) in Hp. lia.
    + intros Hr. by rewrite (Hlen Hr).
    + intros Hr Hkeys. rewrite (Hall Hr); [done |].
      intros k Hin. apply Hkeys. by do 4 right.
  - exists [mkPull true img]. pulls_facts;
      first [done | apply prefix_cons, prefix_nil
            | by intros [|k] p Hk Hp; simplify_eq/=
            | intros ->; inversion Hf].
  - exists [mkPull true img].
    unfold flags, pushed, results, reads_made, pushed_events, shown_events. cbn.
    pulls_facts;
      first [done | apply prefix_cons, prefix_nil
            | by intros [|k] p Hk Hp; simplify_eq/= | idtac].
    intros _ Hkeys. apply Z.geb_le in Hkey.
    assert (waitKey env n < 0); [| lia]. apply Hkeys. do 8 right. by left.
  - exists (mkPull true img :: done).
    unfold flags, pushed, results, reads_made, pushed_events, shown_events in *.
    cbn. pulls_facts.
    + by apply prefix_cons.
    + by rewrite Hfl.
    + by rewrite Hpu.
    + intros [|k] p Hk Hp; [by simplify_eq/= |]. apply (Hsk k p Hk) in Hp. lia.
    + intros Hr. by rewrite (Hlen Hr).
    + intros Hr Hkeys. rewrite (Hall Hr); [done |].
      intros k Hin. apply Hkeys. by do 9 right.
Qed.

(** C5: in every run, whatever its outcome, the loop went through a prefix
    [done] of the pulls the source delivers (all of them when the run
    returns and no key was pressed); the update flags it saw are theirs,
    and the images pushed to the session are those of the pulls reported
    as updated, in order: a pull reported as not updated is not pushed,
    and the loop goes on to the next [read()] after it.  When the run
    returns, the output array has one element per updated pull. *)
Theorem not_updated_pulls_skipped env prhs r w' :
  mexFunction env prhs initial = (r, w') →
  ∃ done : list Pull,
    (∀ prm vs,
       parse_arguments env prhs initial = (Ok prm, initial) →
       vsf_create env (inputPath prm) = Ok (Some vs) →
       (Ok <$> done) `prefix_of` vs_reads vs ∧
       ∀ o, r = Returned o →
            (∀ k, In (EvWaitKey k) (calls w') → k < 0) →
            Ok <$> done = vs_reads vs) ∧
    flags (calls w') = updated <$> done ∧
    pushed (calls w') = image <$> updated_pulls done ∧
    (∀ k p, done !! k = Some p → updated p = false →
            (S k < reads_made (calls w'))%nat) ∧
    ∀ o, r = Returned o →
      ∃ out entries,
        o = Some out ∧
        (∀ n, read_back (3 + n) (heap w') out =
                Some (MxStruct 1 (length (updated_pulls done))
                        ["faces"; "width"; "height"] entries)) ∧
        length entries = length (updated_pulls done).
Proof.
  intros Hrun.
  destruct (mexFunction_body _ _ _ _ _ Hrun) as (br & Hbody & Hr).
  apply body_run in Hbody
    as [(Hsetup & _ & _ & Hbr & _)
       | (prm & sfl & vs & evs & lr & seq' & n' & H1 & _ & H3 & _ & Hloop & Hend)].
  - (* the run stopped in the set-up *)
    assert (Hnot : ∀ o, r ≠ Returned o).
    { intros o Ho. rewrite Ho in Hr. by destruct br as [[]| |]. }
    destruct (setup_readings _ Hsetup) as (Hfl & Hpu & _ & _).
    exists []. rewrite Hfl, Hpu.
    split; [| split; [| split; [| split]]]; [| done | done | |].
    + intros prm vs _ _. split; [apply prefix_nil |].
      intros o Ho. by destruct (Hnot o).
    + by intros k p Hk.
    + intros o Ho. by destruct (Hnot o).
  - (* the run reached the loop *)
    destruct (loop_run_pulls _ _ _ _ _ _ _ _ _ _ _ Hloop)
      as (done & Hpre & Hfl & Hpu & Hsk & Hlen & Hall).
    cbv zeta in Hend.
    assert (Hread : flags (calls w') = flags evs ∧
                    pushed (calls w') = pushed evs ∧
                    results (calls w') = results evs ∧
                    reads_made (calls w') = reads_made evs ∧
                    ∀ k, In (EvWaitKey k) evs → In (EvWaitKey k) (calls w')).
    { destruct Hend as [(_ & Hc & _) | (_ & Hc & _)]; rewrite Hc; cbn [app].
      - pose proof (run_readings (landmarksModelPath prm) (frame_scale prm)
                      (inputPath prm) false evs [] (or_introl eq_refl)) as Hrd.
        cbv zeta in Hrd. rewrite app_nil_r in Hrd.
        by destruct Hrd as (? & ? & ? & ? & ? & _).
      - destruct (run_readings (landmarksModelPath prm) (frame_scale prm)
                    (inputPath prm) false evs [EvDestroyWindow]
                    (or_intror eq_refl))
          as (? & ? & ? & ? & ? & _). done. }
    destruct Hread as (Ef & Ep & Er & Ed & Ek).
    assert (Hret : ∀ o, r = Returned o → lr = Ok tt).
    { intros o Ho. rewrite Ho in Hr.
      destruct Hend as [(Hf & _) | (-> & _)]; [| done].
      destruct Hf; discriminate Hr. }
    exists done. rewrite Ef, Ep, Ed.
    split; [| split; [| split; [| split]]]; [| done | done | done |].
    + intros prm0 vs0 Hp0 Hv0.
      assert (prm0 = prm) as -> by congruence.
      assert (vs0 = vs) as -> by congruence.
      split; [done |].
      intros o Ho Hkeys. apply Hall; [by apply (Hret o) |].
      intros k Hin. by apply Hkeys, Ek.
    + intros o Ho. pose proof (Hret o Ho) as Hlr. rewrite Ho in Hrun.
      destruct (mexFunction_output _ _ _ _ Hrun) as (out & Hout & Hback).
      exists out, (host_frame <$> results (calls w')).
      split; [done |]. split.
      * intros n. rewrite Hback. unfold host_frames.
        by rewrite Er, (Hlen Hlr).
      * by rewrite length_fmap, Er, (Hlen Hlr).
Qed.

Lemma not_updated_pulls_skipped_witness :
  let prhs := [ex_string "model.dat"; ex_string "video.avi"] in
  ∃ o w',
    mexFunction ex_env prhs initial = (Returned o, w') ∧
    flags (calls w') = [true; false; true] ∧
    pushed (calls w') = [ex_image 1; ex_image 0] ∧
    reads_made (calls w') = 4%nat ∧
    ∃ done : list Pull,
      (∀ prm vs,
         parse_arguments ex_env prhs initial = (Ok prm, initial) →
         vsf_create ex_env (inputPath prm) = Ok (Some vs) →
         (Ok <$> done) `prefix_of` vs_reads vs ∧
         ∀ o', Returned o = Returned o' →
              (∀ k, In (EvWaitKey k) (calls w') → k < 0) →
              Ok <$> done = vs_reads vs) ∧
      flags (calls w') = updated <$> done ∧
      pushed (calls w') = image <$> updated_pulls done ∧
      (∀ k p, done !! k = Some p → updated p = false →
              (S k < reads_made (calls w'))%nat) ∧
      ∀ o', Returned o = Returned o' →
        ∃ out entries,
          o' = Some out ∧
          (∀ n, read_back (3 + n) (heap w') out =
                  Some (MxStruct 1 (length (updated_pulls done))
                          ["faces"; "width"; "height"] entries)) ∧
          length entries = length (updated_pulls done).
Proof.
  intros prhs. eexists _, _.
  split; [vm_compute; reflexivity |]. split; [reflexivity |].
  split; [reflexivity |]. split; [reflexivity |].
  eapply (not_updated_pulls_skipped ex_env prhs). vm_compute; reflexivity.
Defined.

(** ** Exceptions *)







